(** * WeLovePDF: the page-collection model and the build pipelines

    A shallow embedding of the three React components of the repository
    (PdfMerger, PdfSplitter, PdfCompressor).  Component state held in
    [useState]/[useRef] hooks becomes a record, every handler becomes a
    function on that record, and the calls into pdf-lib, pdf.js and the
    canvas are taken through interfaces (type classes), so that what is
    proved is how the components orchestrate those libraries. *)

From Stdlib Require Import QArith.
From stdpp Require Import gmap strings list pretty.

Local Open Scope Z_scope.

(** ** Browser values *)

(** A [File]: its name and its bytes.  [file.size] is the byte length and
    [file.arrayBuffer()] resolves to the bytes. *)
Module File.
Record t := mk { name : string; arrayBuffer : list Byte.byte }.
Definition size (f : t) : Z := Z.of_nat (length (arrayBuffer f)).
End File.

(** ** types.ts *)

Module PageInProcessing.
Record t := mk {
  id : string;
  sourceFileId : string;
  originalPageIndex : Z
}.
End PageInProcessing.

Module LoadedPdfFile.
Record t := mk {
  id : string;
  file : File.t;
  pageCount : nat
}.
End LoadedPdfFile.

(** ** JavaScript arrays *)

(** [Array.prototype.splice(start, deleteCount, ...items)].  A negative
    [start] counts from the end, a [start] beyond the end is the end.  The
    result is the removed elements and the array after the call. *)
Definition splice_start (len : nat) (start : Z) : nat :=
  if start <? 0 then Z.to_nat (Z.max (Z.of_nat len + start) 0)
  else Z.to_nat (Z.min start (Z.of_nat len)).

Definition splice {A} (l : list A) (start : Z) (deleteCount : nat)
    (items : list A) : list A * list A :=
  let s := splice_start (length l) start in
  (take deleteCount (drop s l), take s l ++ items ++ drop (s + deleteCount) l).

(** Template literals print numbers in decimal. *)
Definition number_to_string (n : Z) : string := pretty n.

(** A [try] block either runs to its end or throws; both carry the state
    reached so far. *)
Inductive completion (S : Type) :=
| Normal (s : S)
| Throw (s : S).
Arguments Normal {S} s.
Arguments Throw {S} s.

Definition completion_state {S} (c : completion S) : S :=
  match c with Normal s | Throw s => s end.

Definition isNormal {S} (c : completion S) : bool :=
  match c with Normal _ => true | Throw _ => false end.

(** An object literal used as a dictionary.  [obj[key]] is the own property
    when there is one; otherwise the members every object inherits from
    [Object.prototype] are found (functions, or the prototype itself: truthy
    values), and any other key gives [undefined]. *)
Definition Object_prototype_keys : list string :=
  ["constructor"; "hasOwnProperty"; "isPrototypeOf"; "propertyIsEnumerable";
   "toLocaleString"; "toString"; "valueOf"; "__proto__";
   "__defineGetter__"; "__defineSetter__"; "__lookupGetter__";
   "__lookupSetter__"].

Inductive property (A : Type) :=
| OwnValue (a : A)
| InheritedValue
| Undefined.
Arguments OwnValue {A} a.
Arguments InheritedValue {A}.
Arguments Undefined {A}.

Definition get_property {A} (obj : gmap string A) (key : string) : property A :=
  match obj !! key with
  | Some a => OwnValue a
  | None =>
    if decide (key ∈ Object_prototype_keys) then InheritedValue else Undefined
  end.

(** ** pdf-lib, as used for structural copies *)

(** A parsed document is the sequence of its pages.  [PDFDocument_load] and
    [PDFDocument_save] reject (the promise throws) with [None]. *)
Class PdfLib := {
  PDFPage : Type;
  PDFDocument_load : list Byte.byte -> option (list PDFPage);
  PDFDocument_save : list PDFPage -> option (list Byte.byte)
}.

(** [dst.copyPages(src, indices)]: one copy per index, in the order of
    [indices]; an index that is not a page of [src] throws. *)
Definition getPage `{PdfLib} (src : list PDFPage) (index : Z) : option PDFPage :=
  if index <? 0 then None else src !! Z.to_nat index.

Definition copyPages `{PdfLib} (src : list PDFPage) (indices : list Z)
    : option (list PDFPage) :=
  mapM (getPage src) indices.

(** A download: the [download] attribute of the anchor and the blob. *)
Definition Download : Type := string * list Byte.byte.

(** ** PdfMerger *)

Module PdfMerger.

Record State := mkState {
  loadedFiles : list LoadedPdfFile.t;
  pages : list PageInProcessing.t;
  isProcessing : bool;
  error : option string;
  dragItem : option Z;
  dragOverItem : option Z;
  downloads : list Download
}.

Definition initialState : State :=
  mkState [] [] false None None None [].

Definition setPages (ps : list PageInProcessing.t) (st : State) : State :=
  mkState (loadedFiles st) ps (isProcessing st) (error st)
          (dragItem st) (dragOverItem st) (downloads st).

Definition setError (e : option string) (st : State) : State :=
  mkState (loadedFiles st) (pages st) (isProcessing st) e
          (dragItem st) (dragOverItem st) (downloads st).

Definition setIsProcessing (b : bool) (st : State) : State :=
  mkState (loadedFiles st) (pages st) b (error st)
          (dragItem st) (dragOverItem st) (downloads st).

Definition setLoadedFiles (fs : list LoadedPdfFile.t) (st : State) : State :=
  mkState fs (pages st) (isProcessing st) (error st)
          (dragItem st) (dragOverItem st) (downloads st).

Definition click_download (d : Download) (st : State) : State :=
  mkState (loadedFiles st) (pages st) (isProcessing st) (error st)
          (dragItem st) (dragOverItem st) (downloads st ++ [d]).

(** *** handleFilesAccepted *)

(** The page references pushed for one loaded file:
    [for (let i = 0; i < pageCount; i++)]. *)
Definition newPagesOf (fileId : string) (pageCount : nat)
    : list PageInProcessing.t :=
  (fun i : nat =>
     PageInProcessing.mk
       (fileId +:+ "-page-" +:+ number_to_string (Z.of_nat i))
       fileId
       (Z.of_nat i + 1)) <$> seq 0 pageCount.

Definition couldNotProcess (f : File.t) : string :=
  "Could not process " +:+ File.name f +:+ ". It may be corrupted or protected.".

(** The loop over [newFiles].  [Date_now k] is what [Date.now()] returns in
    the [k]-th iteration.  The accumulator is [newLoadedFiles], [newPages]
    and the last error set. *)
Fixpoint handleFilesAccepted_loop `{PdfLib} (Date_now : nat -> Z) (k : nat)
    (newFiles : list File.t)
    (acc : list LoadedPdfFile.t * list PageInProcessing.t * option string)
    : list LoadedPdfFile.t * list PageInProcessing.t * option string :=
  match newFiles with
  | [] => acc
  | file :: rest =>
    let '(newLoadedFiles, newPages, err) := acc in
    let acc' :=
      match PDFDocument_load (File.arrayBuffer file) with
      | Some pdfDoc =>
        let fileId := File.name file +:+ "-" +:+ number_to_string (Date_now k) in
        (newLoadedFiles ++ [LoadedPdfFile.mk fileId file (length pdfDoc)],
         newPages ++ newPagesOf fileId (length pdfDoc),
         err)
      | None => (newLoadedFiles, newPages, Some (couldNotProcess file))
      end in
    handleFilesAccepted_loop Date_now (S k) rest acc'
  end.

(** The names to skip are collected once, from the files loaded so far,
    before the loop. *)
Definition handleFilesAccepted `{PdfLib} (Date_now : nat -> Z)
    (acceptedFiles : list File.t) (st : State) : State :=
  let st := setError None st in
  let currentFileNames : gset string :=
    list_to_set ((fun f => File.name (LoadedPdfFile.file f)) <$> loadedFiles st) in
  let newFiles := filter (fun f => File.name f ∉ currentFileNames) acceptedFiles in
  if decide (length newFiles = 0%nat) then st
  else
    let '(newLoadedFiles, newPages, err) :=
      handleFilesAccepted_loop Date_now 0 newFiles
        (loadedFiles st, pages st, error st) in
    setIsProcessing false
      (setPages newPages (setLoadedFiles newLoadedFiles (setError err st))).

(** *** removePage, drag and drop *)

Definition removePage (pageIdToRemove : string) (st : State) : State :=
  setPages
    (filter (fun p => PageInProcessing.id p ≠ pageIdToRemove) (pages st)) st.

Definition handleDragStart (position : Z) (st : State) : State :=
  mkState (loadedFiles st) (pages st) (isProcessing st) (error st)
          (Some position) (dragOverItem st) (downloads st).

Definition handleDragEnter (position : Z) (st : State) : State :=
  mkState (loadedFiles st) (pages st) (isProcessing st) (error st)
          (dragItem st) (Some position) (downloads st).

(** [handleDrop].  [splice(dragItem, 1)[0]] is [undefined] when nothing was
    removed, and the second [splice] would then store [undefined] in
    [pages]; that array is not a [PageInProcessing[]] any more, and the
    result is [None]. *)
Definition handleDrop (st : State) : option State :=
  match dragItem st, dragOverItem st with
  | Some dragItem_current, Some dragOverItem_current =>
    let '(removed, newPages) := splice (pages st) dragItem_current 1 [] in
    match removed !! 0%nat with
    | Some dragItemContent =>
      let '(_, newPages) :=
        splice newPages dragOverItem_current 0 [dragItemContent] in
      Some (mkState (loadedFiles st) newPages (isProcessing st) (error st)
                    None None (downloads st))
    | None => None
    end
  | _, _ => Some st
  end.

(** *** handleMerge *)

(** The locals of the [try] block: the output document, the cache of parsed
    sources, and (for the record) the ids for which [PDFDocument.load] was
    called, in call order. *)
Record MergeLocals `{PdfLib} := mkLocals {
  mergedPdf : list PDFPage;
  sourcePdfs : gmap string (list PDFPage);
  loadCalls : list string
}.

(** The body of [for (const page of pages)]: first
    [if (!sourcePdfs[page.sourceFileId])] with the lookup in [loadedFiles]
    and the parse, then [if (sourcePdf)] with the copy.  An own or inherited
    property is truthy; an inherited one is no [PDFDocument], and
    [copyPages] rejects it. *)
Definition handleMerge_body `{PdfLib} (loadedFiles : list LoadedPdfFile.t)
    (l : MergeLocals) (page : PageInProcessing.t) : completion MergeLocals :=
  let sid := PageInProcessing.sourceFileId page in
  let afterLoad :=
    match get_property (sourcePdfs l) sid with
    | Undefined =>
      match List.find (fun f => bool_decide (LoadedPdfFile.id f = sid)) loadedFiles with
      | Some loadedFile =>
        let l1 := mkLocals _ (mergedPdf l) (sourcePdfs l) (loadCalls l ++ [sid]) in
        match PDFDocument_load (File.arrayBuffer (LoadedPdfFile.file loadedFile)) with
        | Some doc =>
          Normal (mkLocals _ (mergedPdf l1) (<[sid := doc]> (sourcePdfs l1)) (loadCalls l1))
        | None => Throw l1
        end
      | None => Normal l
      end
    | _ => Normal l
    end in
  match afterLoad with
  | Throw l => Throw l
  | Normal l =>
    match get_property (sourcePdfs l) sid with
    | OwnValue sourcePdf =>
      match copyPages sourcePdf [PageInProcessing.originalPageIndex page - 1] with
      | Some (copiedPage :: _) =>
        Normal (mkLocals _ (mergedPdf l ++ [copiedPage]) (sourcePdfs l) (loadCalls l))
      | _ => Throw l
      end
    | InheritedValue => Throw l
    | Undefined => Normal l
    end
  end.

Fixpoint handleMerge_loop `{PdfLib} (loadedFiles : list LoadedPdfFile.t)
    (l : MergeLocals) (pages : list PageInProcessing.t)
    : completion MergeLocals :=
  match pages with
  | [] => Normal l
  | page :: rest =>
    match handleMerge_body loadedFiles l page with
    | Normal l' => handleMerge_loop loadedFiles l' rest
    | Throw l' => Throw l'
    end
  end.

Definition emptyLocals `{PdfLib} : MergeLocals := mkLocals _ [] ∅ [].

(** [handleMerge]: the guard on an empty [pages], then the [try] block with
    the loop, [save] and the download; [catch] sets the error and [finally]
    clears [isProcessing]. *)
Definition handleMerge `{PdfLib} (st : State) : State :=
  if decide (length (pages st) = 0%nat) then
    setError (Some "No pages to merge. Please add some PDF files.") st
  else
    let st := setError None (setIsProcessing true st) in
    let failed :=
      setIsProcessing false
        (setError (Some "An error occurred while merging the PDFs.") st) in
    match handleMerge_loop (loadedFiles st) emptyLocals (pages st) with
    | Normal l =>
      match PDFDocument_save (mergedPdf l) with
      | Some mergedPdfBytes =>
        setIsProcessing false (click_download ("merged.pdf", mergedPdfBytes) st)
      | None => failed
      end
    | Throw _ => failed
    end.

Definition resetState (st : State) : State :=
  mkState [] [] false None (dragItem st) (dragOverItem st) (downloads st).

End PdfMerger.

(** ** PdfSplitter *)

Module PdfSplitter.

Record State := mkState {
  loadedFile : option LoadedPdfFile.t;
  pages : list PageInProcessing.t;
  selectedPages : gset string;
  isProcessing : bool;
  error : option string;
  downloads : list Download
}.

Definition initialState : State := mkState None [] ∅ false None [].

Definition setError (e : option string) (st : State) : State :=
  mkState (loadedFile st) (pages st) (selectedPages st) (isProcessing st) e
          (downloads st).

Definition setIsProcessing (b : bool) (st : State) : State :=
  mkState (loadedFile st) (pages st) (selectedPages st) b (error st)
          (downloads st).

Definition click_download (d : Download) (st : State) : State :=
  mkState (loadedFile st) (pages st) (selectedPages st) (isProcessing st)
          (error st) (downloads st ++ [d]).

Definition resetState (st : State) : State :=
  mkState None [] ∅ (isProcessing st) None (downloads st).

(** Only the first accepted file is taken.  In the [catch] block
    [resetState()] comes after [setError(...)] and sets the error back to
    [null]. *)
Definition handleFileAccepted `{PdfLib} (Date_now : Z)
    (acceptedFiles : list File.t) (st : State) : State :=
  match acceptedFiles with
  | [] => st
  | file :: _ =>
    let st := resetState (setIsProcessing true (setError None st)) in
    match PDFDocument_load (File.arrayBuffer file) with
    | Some pdfDoc =>
      let fileId := File.name file +:+ "-" +:+ number_to_string Date_now in
      let pageCount := length pdfDoc in
      let newFile := LoadedPdfFile.mk fileId file pageCount in
      let newPages :=
        (fun i : nat =>
           PageInProcessing.mk
             (fileId +:+ "-page-" +:+ number_to_string (Z.of_nat i))
             fileId (Z.of_nat i + 1)) <$> seq 0 pageCount in
      mkState (Some newFile) newPages (selectedPages st) false (error st)
              (downloads st)
    | None =>
      let st :=
        setError (Some ("Could not process " +:+ File.name file
                         +:+ ". It may be corrupted or protected.")) st in
      setIsProcessing false (resetState st)
    end
  end.

(** Selection is a set of page ids; deleting removes every selected page and
    empties the selection. *)
Definition togglePageSelection (pageId : string) (st : State) : State :=
  let newSet :=
    if decide (pageId ∈ selectedPages st) then selectedPages st ∖ {[pageId]}
    else selectedPages st ∪ {[pageId]} in
  mkState (loadedFile st) (pages st) newSet (isProcessing st) (error st)
          (downloads st).

Definition deleteSelectedPages (st : State) : State :=
  mkState (loadedFile st)
          (filter (fun p => PageInProcessing.id p ∉ selectedPages st) (pages st))
          ∅ (isProcessing st) (error st) (downloads st).

(** The document built inside the [try] block of [handleCreatePdf], as it is
    handed to [save]; [None] when [load] or [copyPages] throws. *)
Definition handleCreatePdf_newPdf `{PdfLib} (loadedFile : LoadedPdfFile.t)
    (pages : list PageInProcessing.t) : option (list PDFPage) :=
  match PDFDocument_load (File.arrayBuffer (LoadedPdfFile.file loadedFile)) with
  | Some sourcePdf =>
    let pageIndicesToKeep :=
      (fun p => PageInProcessing.originalPageIndex p - 1) <$> pages in
    match copyPages sourcePdf pageIndicesToKeep with
    | Some copiedPages => Some ([] ++ copiedPages)
    | None => None
    end
  | None => None
  end.

(** [handleCreatePdf]: the guard on a missing file or an empty [pages],
    then the [try] block; every page is copied from the one loaded file. *)
Definition handleCreatePdf `{PdfLib} (st : State) : State :=
  let noPages := setError (Some "No pages to create a PDF from.") st in
  match loadedFile st with
  | None => noPages
  | Some loadedFile =>
    if decide (length (pages st) = 0%nat) then noPages
    else
      let st := setError None (setIsProcessing true st) in
      let failed :=
        setIsProcessing false
          (setError (Some "An error occurred while creating the new PDF.") st) in
      match handleCreatePdf_newPdf loadedFile (pages st) with
      | Some newPdf =>
        match PDFDocument_save newPdf with
        | Some newPdfBytes =>
          setIsProcessing false
            (click_download
               ("split-" +:+ File.name (LoadedPdfFile.file loadedFile), newPdfBytes)
               st)
        | None => failed
        end
      | None => failed
      end
  end.

End PdfSplitter.

(** ** JavaScript numbers in the compressor *)

(** Sizes and scales are kept as exact rationals (the rounding of IEEE
    doubles is left out); a division keeps JavaScript's three results that
    are not numbers of [Q]. *)
Inductive number :=
| Finite (q : Q)
| Infinity
| NegInfinity
| NaN.

Definition number_div (a b : Q) : number :=
  if Qeq_bool b 0 then
    (if Qlt_le_dec 0 a then Infinity
     else if Qlt_le_dec a 0 then NegInfinity else NaN)
  else Finite (a / b).

(** [n * k] for a finite [k]. *)
Definition number_mul (n : number) (k : Q) : number :=
  match n with
  | Finite q => Finite (q * k)
  | Infinity =>
    if Qlt_le_dec 0 k then Infinity
    else if Qlt_le_dec k 0 then NegInfinity else NaN
  | NegInfinity =>
    if Qlt_le_dec 0 k then NegInfinity
    else if Qlt_le_dec k 0 then Infinity else NaN
  | NaN => NaN
  end.

Definition number_negative (n : number) : Prop :=
  match n with
  | Finite q => (q < 0)%Q
  | NegInfinity => True
  | _ => False
  end.

(** ** pdf.js, the canvas and pdf-lib, as used for rasterizing *)

Module PageViewport.
Record t := mk { width : Q; height : Q }.
End PageViewport.

(** What the compressor calls.  Calls that may throw or reject return an
    [option] ([getDocument], [getPage], [render], [embedJpg]);
    [getContext_2d] tells whether [getContext('2d')] gave a context.  The
    canvas is opaque: it is created, sized, painted by [render] and read
    back by [toDataURL]. *)
Class Rasterizer := {
  PDFPageProxy : Type;
  HTMLCanvasElement : Type;
  PDFImage : Type;
  PDFDocumentProxy : Type;
  pdfjs_getDocument : list Byte.byte -> option PDFDocumentProxy;
  numPages : PDFDocumentProxy -> nat;
  pdfjs_getPage : PDFDocumentProxy -> nat -> option PDFPageProxy;
  getViewport : PDFPageProxy -> Q -> PageViewport.t;
  createElement_canvas : HTMLCanvasElement;
  getContext_2d : HTMLCanvasElement -> bool;
  set_height : Q -> HTMLCanvasElement -> HTMLCanvasElement;
  set_width : Q -> HTMLCanvasElement -> HTMLCanvasElement;
  render : PDFPageProxy -> HTMLCanvasElement -> PageViewport.t
           -> option HTMLCanvasElement;
  toDataURL : HTMLCanvasElement -> string -> Q -> string;
  embedJpg : string -> option PDFImage
}.

(** A page made by [addPage([width, height])] and what [drawImage] put on
    it. *)
Module DrawnImage.
Record t `{Rasterizer} := mk {
  image : PDFImage;
  x : Q;
  y : Q;
  width : Q;
  height : Q
}.
End DrawnImage.

Module OutputPage.
Record t `{Rasterizer} := mk {
  size : Q * Q;
  drawn : list DrawnImage.t
}.
End OutputPage.

Definition addPage `{Rasterizer} (size : Q * Q) : OutputPage.t :=
  OutputPage.mk _ size [].

Definition drawImage `{Rasterizer} (img : PDFImage) (x y width height : Q)
    (page : OutputPage.t) : OutputPage.t :=
  OutputPage.mk _ (OutputPage.size page)
    (OutputPage.drawn page ++ [DrawnImage.mk _ img x y width height]).

(** Serializing the rebuilt document. *)
Class RasterSave `{Rasterizer} := {
  newPdfDoc_save : list OutputPage.t -> option (list Byte.byte)
}.

(** ** PdfCompressor *)

Module PdfCompressor.

Record CompressionLevel := mkLevel {
  label : string;
  quality : Q;
  scale : Q
}.

Definition COMPRESSION_LEVELS : list CompressionLevel :=
  [ mkLevel "標準 (推奨)" 0.7 0.9;
    mkLevel "高画質 (低圧縮)" 0.8 1.0 ].

Record CompressionResult := mkResult {
  originalSize : Z;
  compressedSize : Z;
  reduction : number;
  fileName : string;
  data : list Byte.byte
}.

(** What the run lets the outside see, in order: every [setProgress] call,
    and the end of each iteration of the page loop (the page has been
    rendered, encoded and appended). *)
Inductive Event :=
| SetProgress (text : string)
| PageDone (i : nat).

Record State := mkState {
  file : option File.t;
  isProcessing : bool;
  result : option CompressionResult;
  error : option string;
  progress : string;
  compressionLevel : nat;
  events : list Event
}.

Definition initialState : State := mkState None false None None "" 0 [].

Definition setFile (f : option File.t) (st : State) : State :=
  mkState f (isProcessing st) (result st) (error st) (progress st)
          (compressionLevel st) (events st).

Definition setIsProcessing (b : bool) (st : State) : State :=
  mkState (file st) b (result st) (error st) (progress st)
          (compressionLevel st) (events st).

Definition setResult (r : option CompressionResult) (st : State) : State :=
  mkState (file st) (isProcessing st) r (error st) (progress st)
          (compressionLevel st) (events st).

Definition setError (e : option string) (st : State) : State :=
  mkState (file st) (isProcessing st) (result st) e (progress st)
          (compressionLevel st) (events st).

Definition setProgress (text : string) (st : State) : State :=
  mkState (file st) (isProcessing st) (result st) (error st) text
          (compressionLevel st) (events st ++ [SetProgress text]).

Definition setCompressionLevel (index : nat) (st : State) : State :=
  mkState (file st) (isProcessing st) (result st) (error st) (progress st)
          index (events st).

Definition pageDone (i : nat) (st : State) : State :=
  mkState (file st) (isProcessing st) (result st) (error st) (progress st)
          (compressionLevel st) (events st ++ [PageDone i]).

Definition handleFileAccepted (files : list File.t) (st : State) : State :=
  mkState (head files) (isProcessing st) None None ""
          (compressionLevel st) (events st ++ [SetProgress ""]).

Definition progressText (i totalPages : nat) : string :=
  number_to_string (Z.of_nat i) +:+ " / "
  +:+ number_to_string (Z.of_nat totalPages) +:+ " ページ目を処理中...".

(** One page, from [getViewport] to [drawImage]: the viewport, the canvas of
    its size, the check of the context, the rendering, the JPEG data URL,
    the embedded image, and the new page with the image drawn on it. *)
Definition rasterizePage `{Rasterizer} (settings : CompressionLevel)
    (page : PDFPageProxy) : option OutputPage.t :=
  let viewport := getViewport page (1.5 * scale settings)%Q in
  let canvas := createElement_canvas in
  let context := getContext_2d canvas in
  let canvas := set_height (PageViewport.height viewport) canvas in
  let canvas := set_width (PageViewport.width viewport) canvas in
  if negb context then None
  else
    match render page canvas viewport with
    | Some canvas =>
      let imgDataUrl := toDataURL canvas "image/jpeg" (quality settings) in
      match embedJpg imgDataUrl with
      | Some jpgImage =>
        let newPage :=
          addPage (PageViewport.width viewport, PageViewport.height viewport) in
        Some (drawImage jpgImage 0 0 (PageViewport.width viewport)
                        (PageViewport.height viewport) newPage)
      | None => None
      end
    | None => None
    end.

(** The body of [for (let i = 1; i <= totalPages; i++)].  [settings] is
    [undefined] when [compressionLevel] is no index of the menu; reading
    [settings.scale] then throws. *)
Definition handleCompress_body `{Rasterizer} (pdfViewerDoc : PDFDocumentProxy)
    (totalPages : nat) (settings : option CompressionLevel)
    (acc : State * list OutputPage.t) (i : nat)
    : completion (State * list OutputPage.t) :=
  let '(st, newPdfDoc) := acc in
  let st := setProgress (progressText i totalPages) st in
  match pdfjs_getPage pdfViewerDoc i, settings with
  | Some page, Some settings =>
    match rasterizePage settings page with
    | Some newPage => Normal (pageDone i st, newPdfDoc ++ [newPage])
    | None => Throw (st, newPdfDoc)
    end
  | _, _ => Throw (st, newPdfDoc)
  end.

Fixpoint handleCompress_loop `{Rasterizer} (pdfViewerDoc : PDFDocumentProxy)
    (totalPages : nat) (settings : option CompressionLevel)
    (acc : State * list OutputPage.t) (indices : list nat)
    : completion (State * list OutputPage.t) :=
  match indices with
  | [] => Normal acc
  | i :: rest =>
    match handleCompress_body pdfViewerDoc totalPages settings acc i with
    | Normal acc' =>
      handleCompress_loop pdfViewerDoc totalPages settings acc' rest
    | Throw acc' => Throw acc'
    end
  end.

(** The [try] block of [handleCompress]. *)
Definition handleCompress_try `{RasterSave} (file : File.t) (st : State)
    : completion State :=
  match pdfjs_getDocument (File.arrayBuffer file) with
  | None => Throw st
  | Some pdfViewerDoc =>
    let totalPages := numPages pdfViewerDoc in
    let settings := COMPRESSION_LEVELS !! compressionLevel st in
    match handleCompress_loop pdfViewerDoc totalPages settings (st, [])
            (seq 1 totalPages) with
    | Throw (st, _) => Throw st
    | Normal (st, newPdfDoc) =>
      let st := setProgress "仕上げ処理中..." st in
      match newPdfDoc_save newPdfDoc with
      | None => Throw st
      | Some compressedBytes =>
        let originalSize := File.size file in
        let compressedSize := Z.of_nat (length compressedBytes) in
        let reduction :=
          number_mul
            (number_div (inject_Z (originalSize - compressedSize))
                        (inject_Z originalSize))
            100 in
        Normal
          (setResult
             (Some (mkResult originalSize compressedSize reduction
                             ("compressed-" +:+ File.name file)
                             compressedBytes))
             st)
      end
    end
  end.

Definition handleCompress `{RasterSave} (st : State) : State :=
  match file st with
  | None => st
  | Some file =>
    let st :=
      setProgress "準備中..."
        (setResult None (setError None (setIsProcessing true st))) in
    let st :=
      match handleCompress_try file st with
      | Normal st => st
      | Throw st =>
        setError
          (Some "圧縮中にエラーが発生しました。ファイルが壊れているか、保護されている可能性があります。")
          st
      end in
    setProgress "" (setIsProcessing false st)
  end.

Definition resetState (st : State) : State :=
  mkState None false None None "" (compressionLevel st)
          (events st ++ [SetProgress ""]).

End PdfCompressor.

(** ** Reading the working set as the spec does *)

(** The registry entry a [sourceFileId] resolves to. *)
Definition resolve (loadedFiles : list LoadedPdfFile.t) (sid : string)
    : option LoadedPdfFile.t :=
  List.find (fun f => bool_decide (LoadedPdfFile.id f = sid)) loadedFiles.

(** The page a reference stands for: the page at [originalPageIndex]
    (1-based) of the parsed source its [sourceFileId] resolves to. *)
Definition referencedPage `{PdfLib} (loadedFiles : list LoadedPdfFile.t)
    (p : PageInProcessing.t) : option PDFPage :=
  match resolve loadedFiles (PageInProcessing.sourceFileId p) with
  | Some f =>
    match PDFDocument_load (File.arrayBuffer (LoadedPdfFile.file f)) with
    | Some doc => getPage doc (PageInProcessing.originalPageIndex p - 1)
    | None => None
    end
  | None => None
  end.

(** The invariants of the data model for one reference: the source is in
    the registry and parses, and the index is one of its pages.  File ids
    are made as [name-timestamp], which is never the name of a member
    inherited from [Object.prototype]. *)
Definition PageRefOk `{PdfLib} (loadedFiles : list LoadedPdfFile.t)
    (p : PageInProcessing.t) : Prop :=
  (PageInProcessing.sourceFileId p ∉ Object_prototype_keys) ∧
  ∃ f doc,
    resolve loadedFiles (PageInProcessing.sourceFileId p) = Some f ∧
    PDFDocument_load (File.arrayBuffer (LoadedPdfFile.file f)) = Some doc ∧
    1 ≤ PageInProcessing.originalPageIndex p ≤ Z.of_nat (length doc).

(** Insertion of [x] in front of position [k]. *)
Definition insertAt {A} (k : nat) (x : A) (l : list A) : list A :=
  take k l ++ x :: drop k l.

(** The registry entries one batch adds: one entry per file of [newFiles]
    that parses, in batch order, the [k]-th file being stamped
    [Date_now k]. *)
Fixpoint loadedEntries `{PdfLib} (Date_now : nat -> Z) (k : nat)
    (newFiles : list File.t) : list LoadedPdfFile.t :=
  match newFiles with
  | [] => []
  | file :: rest =>
    match PDFDocument_load (File.arrayBuffer file) with
    | Some pdfDoc =>
      [LoadedPdfFile.mk
         (File.name file +:+ "-" +:+ number_to_string (Date_now k))
         file (length pdfDoc)]
    | None => []
    end ++ loadedEntries Date_now (S k) rest
  end.

(** All page references of the given registry entries, entry by entry. *)
Definition allPagesOf (entries : list LoadedPdfFile.t)
    : list PageInProcessing.t :=
  concat ((fun e => PdfMerger.newPagesOf (LoadedPdfFile.id e)
                      (LoadedPdfFile.pageCount e)) <$> entries).

(** ** The states the merger reaches *)

(** A registry entry as [handleFilesAccepted] makes it: the file parses, the
    page count is that of the parsed document, the id is
    [name-timestamp]. *)
Definition EntryOk `{PdfLib} (e : LoadedPdfFile.t) : Prop :=
  (∃ doc, PDFDocument_load (File.arrayBuffer (LoadedPdfFile.file e)) = Some doc ∧
          LoadedPdfFile.pageCount e = length doc) ∧
  ∃ t : Z,
    LoadedPdfFile.id e
    = File.name (LoadedPdfFile.file e) +:+ "-" +:+ number_to_string t.

(** A page reference made for one of the entries of the registry. *)
Definition RefersTo (loadedFiles : list LoadedPdfFile.t)
    (p : PageInProcessing.t) : Prop :=
  ∃ e, e ∈ loadedFiles ∧
       PageInProcessing.sourceFileId p = LoadedPdfFile.id e ∧
       1 ≤ PageInProcessing.originalPageIndex p
         ≤ Z.of_nat (LoadedPdfFile.pageCount e).

Definition Loaded `{PdfLib} (st : PdfMerger.State) : Prop :=
  Forall EntryOk (PdfMerger.loadedFiles st) ∧
  Forall (RefersTo (PdfMerger.loadedFiles st)) (PdfMerger.pages st).


(** ** The merge loop, step by step *)

Section merge_loop_shape.

Context `{PdfLib}.
Import PdfMerger.

Implicit Types (lf : list LoadedPdfFile.t) (l : MergeLocals)
  (p : PageInProcessing.t).

(** What the cache holds while the loop runs: parsed sources of the
    registry under their own ids, each of them recorded in [loadCalls]. *)
Record CacheOk lf l : Prop := {
  cache_sound : ∀ sid doc,
    sourcePdfs l !! sid = Some doc →
    (sid ∉ Object_prototype_keys) ∧
    ∃ f, resolve lf sid = Some f ∧
         PDFDocument_load (File.arrayBuffer (LoadedPdfFile.file f)) = Some doc;
  cache_calls : ∀ sid, sid ∈ loadCalls l ↔ is_Some (sourcePdfs l !! sid);
  cache_nodup : NoDup (loadCalls l)
}.

(** The ways through the body of the merge loop. *)
Inductive BodyStep lf l p : completion MergeLocals → Prop :=
| step_cached doc pg :
    sourcePdfs l !! PageInProcessing.sourceFileId p = Some doc →
    getPage doc (PageInProcessing.originalPageIndex p - 1) = Some pg →
    BodyStep lf l p
      (Normal (mkLocals _ (mergedPdf l ++ [pg]) (sourcePdfs l) (loadCalls l)))
| step_cached_bad_index doc :
    sourcePdfs l !! PageInProcessing.sourceFileId p = Some doc →
    getPage doc (PageInProcessing.originalPageIndex p - 1) = None →
    BodyStep lf l p (Throw l)
| step_inherited :
    sourcePdfs l !! PageInProcessing.sourceFileId p = None →
    PageInProcessing.sourceFileId p ∈ Object_prototype_keys →
    BodyStep lf l p (Throw l)
| step_unresolved :
    sourcePdfs l !! PageInProcessing.sourceFileId p = None →
    PageInProcessing.sourceFileId p ∉ Object_prototype_keys →
    resolve lf (PageInProcessing.sourceFileId p) = None →
    BodyStep lf l p (Normal l)
| step_load_fails f :
    sourcePdfs l !! PageInProcessing.sourceFileId p = None →
    PageInProcessing.sourceFileId p ∉ Object_prototype_keys →
    resolve lf (PageInProcessing.sourceFileId p) = Some f →
    PDFDocument_load (File.arrayBuffer (LoadedPdfFile.file f)) = None →
    BodyStep lf l p
      (Throw (mkLocals _ (mergedPdf l) (sourcePdfs l)
                (loadCalls l ++ [PageInProcessing.sourceFileId p])))
| step_loaded f doc pg :
    sourcePdfs l !! PageInProcessing.sourceFileId p = None →
    PageInProcessing.sourceFileId p ∉ Object_prototype_keys →
    resolve lf (PageInProcessing.sourceFileId p) = Some f →
    PDFDocument_load (File.arrayBuffer (LoadedPdfFile.file f)) = Some doc →
    getPage doc (PageInProcessing.originalPageIndex p - 1) = Some pg →
    BodyStep lf l p
      (Normal (mkLocals _ (mergedPdf l ++ [pg])
                 (<[PageInProcessing.sourceFileId p := doc]> (sourcePdfs l))
                 (loadCalls l ++ [PageInProcessing.sourceFileId p])))
| step_loaded_bad_index f doc :
    sourcePdfs l !! PageInProcessing.sourceFileId p = None →
    PageInProcessing.sourceFileId p ∉ Object_prototype_keys →
    resolve lf (PageInProcessing.sourceFileId p) = Some f →
    PDFDocument_load (File.arrayBuffer (LoadedPdfFile.file f)) = Some doc →
    getPage doc (PageInProcessing.originalPageIndex p - 1) = None →
    BodyStep lf l p
      (Throw (mkLocals _ (mergedPdf l)
                (<[PageInProcessing.sourceFileId p := doc]> (sourcePdfs l))
                (loadCalls l ++ [PageInProcessing.sourceFileId p]))).

End merge_loop_shape.

(** ** Reading the rasterizing build *)

Section raster_shape.

Context `{Rasterizer}.
Import PdfCompressor.

(** The page the loop appends for a source page: rendered in the viewport
    of scale [1.5 * scale], encoded as JPEG at [quality], drawn over the
    whole of a page of the viewport's size. *)
Definition RasterOf (s : CompressionLevel) (page : PDFPageProxy)
    (out : OutputPage.t) : Prop :=
  let viewport := getViewport page (1.5 * scale s)%Q in
  let w := PageViewport.width viewport in
  let h := PageViewport.height viewport in
  ∃ canvas img,
    render page (set_width w (set_height h createElement_canvas)) viewport
    = Some canvas ∧
    embedJpg (toDataURL canvas "image/jpeg" (quality s)) = Some img ∧
    out = OutputPage.mk _ (w, h) [DrawnImage.mk _ img 0 0 w h].

(** Page [i] of the source, fetched and rasterized; [None] when a step of
    the loop body throws. *)
Definition rasterizeNth (doc : PDFDocumentProxy)
    (settings : option CompressionLevel) (i : nat) : option OutputPage.t :=
  match pdfjs_getPage doc i, settings with
  | Some page, Some s => rasterizePage s page
  | _, _ => None
  end.

(** The document the page loop builds when no page fails: page [1] to page
    [numPages], each rasterized with the same settings. *)
Definition rasterizeAll (doc : PDFDocumentProxy)
    (settings : option CompressionLevel) : option (list OutputPage.t) :=
  mapM (rasterizeNth doc settings) (seq 1 (numPages doc)).

(** What the loop shows for the pages [idxs]: each page is announced, then
    processed. *)
Definition pageEvents (totalPages : nat) (idxs : list nat) : list Event :=
  concat ((fun i => [SetProgress (progressText i totalPages); PageDone i]) <$> idxs).

(** The loop touches the progress text and the events only. *)
Definition sameButProgress (st st' : State) : Prop :=
  file st' = file st ∧ isProcessing st' = isProcessing st ∧
  result st' = result st ∧ error st' = error st ∧
  compressionLevel st' = compressionLevel st.


(** The spec's order of events for page [i]: the report for page [i] comes
    after the page was rendered, encoded and appended. *)
Definition reportedAfterCompletion (evs : list Event) (i totalPages : nat)
    : Prop :=
  ∃ a b : nat,
    (a < b)%nat ∧ evs !! a = Some (PageDone i) ∧
    evs !! b = Some (SetProgress (progressText i totalPages)).

End raster_shape.

(** ** A small pdf-lib to run the handlers on

    A file parses when it is not empty, each byte is a page, and saving
    writes the pages back. *)
Definition bytePdfLib : PdfLib :=
  {| PDFPage := Byte.byte;
     PDFDocument_load := fun bytes =>
       match bytes with [] => None | _ => Some bytes end;
     PDFDocument_save := fun pages => Some pages |}.

Definition fileA : File.t := File.mk "a.pdf" [Byte.x01; Byte.x02; Byte.x03].
Definition fileB : File.t := File.mk "b.pdf" [Byte.x0a; Byte.x0b].
Definition loadedA : LoadedPdfFile.t := LoadedPdfFile.mk "a.pdf-1" fileA 3.
Definition loadedB : LoadedPdfFile.t := LoadedPdfFile.mk "b.pdf-2" fileB 2.

(** A second file called a.pdf, with other contents. *)
Definition fileA' : File.t := File.mk "a.pdf" [Byte.x07].

Definition pageRef (sid : string) (i : Z) : PageInProcessing.t :=
  PageInProcessing.mk (sid +:+ "-page-" +:+ number_to_string (i - 1)) sid i.

(** Sources A (3 pages) and B (2 pages), interleaved. *)
Definition mergerAB : PdfMerger.State :=
  PdfMerger.mkState [loadedA; loadedB]
    [pageRef "a.pdf-1" 1; pageRef "b.pdf-2" 1; pageRef "a.pdf-1" 2;
     pageRef "b.pdf-2" 2; pageRef "a.pdf-1" 3]
    false None None None [].

(** Source A only, with a second reference whose source is in no registry. *)
Definition mergerDangling : PdfMerger.State :=
  PdfMerger.mkState [loadedA]
    [pageRef "a.pdf-1" 1; pageRef "gone.pdf-9" 1]
    false None None None [].

(** Source A loaded for a split at time 1, its second page selected and
    deleted. *)
Definition splitterA : PdfSplitter.State :=
  PdfSplitter.deleteSelectedPages
    (PdfSplitter.togglePageSelection "a.pdf-1-page-1"
       (@PdfSplitter.handleFileAccepted bytePdfLib 1 [fileA]
          PdfSplitter.initialState)).

(** ** A small rendering engine to run the compressor on

    A file parses when it starts with the byte of '%'; every further byte
    is a page of 612 by 792 points.  A canvas is its size and what was
    painted; the encoder and [embedJpg] keep what they are given.  Saving
    writes sixteen bytes per page. *)
Definition toyRasterizer : Rasterizer :=
  {| PDFPageProxy := Byte.byte;
     HTMLCanvasElement := Q * Q * option Byte.byte;
     PDFImage := string * Q * (Q * Q * option Byte.byte);
     PDFDocumentProxy := list Byte.byte;
     pdfjs_getDocument := fun bytes =>
       match bytes with
       | Byte.x25 :: pages => Some pages
       | _ => None
       end;
     numPages := fun doc => length doc;
     pdfjs_getPage := fun doc i =>
       match i with O => None | S j => doc !! j end;
     getViewport := fun _ scale =>
       PageViewport.mk (612 * scale)%Q (792 * scale)%Q;
     createElement_canvas := (300%Q, 150%Q, None);
     getContext_2d := fun _ => true;
     set_height := fun h c => (c.1.1, h, c.2);
     set_width := fun w c => (w, c.1.2, c.2);
     render := fun page c _ => Some (c.1, Some page);
     toDataURL := fun c mime q => "data:" +:+ mime +:+ ";base64,";
     embedJpg := fun url => Some (url, 0%Q, (0%Q, 0%Q, None)) |}.

Definition toyRasterSave : @RasterSave toyRasterizer :=
  {| newPdfDoc_save := fun pages =>
       Some (concat ((fun _ => replicate 16 Byte.x00) <$> pages)) |}.

(** A one-page file of two bytes, and a file that parses to no page. *)
Definition onePageFile : File.t := File.mk "scan.pdf" [Byte.x25; Byte.x01].
Definition noPageFile : File.t := File.mk "empty.pdf" [Byte.x25].

Definition onePageDoc : @PDFDocumentProxy toyRasterizer := [Byte.x01].
Definition compressorWith (f : File.t) : PdfCompressor.State :=
  PdfCompressor.handleFileAccepted [f] PdfCompressor.initialState.

(** ** FileDropzone *)

Module FileDropzone.

(** A file as a drop or the file input hands it over: the [File] and its
    [type]. *)
Record PickedFile := mkPicked { file : File.t; type : string }.

(** What a handler does to the outside: the callback of the owning
    component, or an alert box. *)
Inductive Effect :=
| OnFilesAccepted (files : list File.t)
| Alert (message : string).

(** [handleDrag]: the new value of [isDragActive] for an event of the given
    type. *)
Definition handleDrag (eventType : string) (isDragActive : bool) : bool :=
  if decide (eventType = "dragenter" ∨ eventType = "dragover") then true
  else if decide (eventType = "dragleave") then false
  else isDragActive.

(** [handleDrop]: [isDragActive] afterwards, and the effects.  With
    [multiple] off only [acceptedFiles[0]] is passed on. *)
Definition handleDrop (multiple : bool) (files : list PickedFile)
    : bool * list Effect :=
  (false,
   if decide (0 < length files)%nat then
     let acceptedFiles := filter (fun f => type f = "application/pdf") files in
     if decide (0 < length acceptedFiles)%nat then
       [OnFilesAccepted
          (file <$> (if multiple then acceptedFiles else take 1 acceptedFiles))]
     else [Alert "Please drop PDF files only."]
   else []).

(** [handleChange]: the files chosen in the file input are passed on as they
    are. *)
Definition handleChange (files : list PickedFile) : list Effect :=
  if decide (0 < length files)%nat then [OnFilesAccepted (file <$> files)]
  else [].

End FileDropzone.

(** The test of [handleDrop] on a dropped file. *)
Definition isPdf (f : FileDropzone.PickedFile) : Prop :=
  FileDropzone.type f = "application/pdf".

#[global] Instance isPdf_dec f : Decision (isPdf f).
Proof. unfold isPdf. apply _. Defined.

(** The files of a batch that [handleFilesAccepted] takes: those whose name
    no loaded file has. *)
Definition newFilesOf (st : PdfMerger.State) (acceptedFiles : list File.t)
    : list File.t :=
  filter (fun f => File.name f ∉
     (list_to_set ((fun f => File.name (LoadedPdfFile.file f))
                     <$> PdfMerger.loadedFiles st) : gset string)) acceptedFiles.

(** ** What PdfMerger renders *)






(** ** The states the splitter reaches *)

Inductive SplitterReachable `{PdfLib} : PdfSplitter.State -> Prop :=
| sreach_initial : SplitterReachable PdfSplitter.initialState
| sreach_handleFileAccepted Date_now acceptedFiles st :
    SplitterReachable st ->
    SplitterReachable (PdfSplitter.handleFileAccepted Date_now acceptedFiles st)
| sreach_togglePageSelection pageId st :
    SplitterReachable st ->
    SplitterReachable (PdfSplitter.togglePageSelection pageId st)
| sreach_deleteSelectedPages st :
    SplitterReachable st -> SplitterReachable (PdfSplitter.deleteSelectedPages st)
| sreach_handleCreatePdf st :
    SplitterReachable st -> SplitterReachable (PdfSplitter.handleCreatePdf st)
| sreach_resetState st :
    SplitterReachable st -> SplitterReachable (PdfSplitter.resetState st).

(** What holds of them: the loaded file parses to as many pages as it
    records, and the pages are some of its page references, in their
    order. *)
Definition SplitterOk `{PdfLib} (st : PdfSplitter.State) : Prop :=
  match PdfSplitter.loadedFile st with
  | Some lf =>
    EntryOk lf ∧
    PdfSplitter.pages st
      `sublist_of` PdfMerger.newPagesOf (LoadedPdfFile.id lf)
                     (LoadedPdfFile.pageCount lf)
  | None => PdfSplitter.pages st = []
  end.

(** Removing ids one after the other from a list of pages. *)
Definition removeEach (ids : list string) (pages : list PageInProcessing.t)
    : list PageInProcessing.t :=
  foldr (fun pageId ps => filter (fun p => PageInProcessing.id p ≠ pageId) ps)
        pages ids.

(** ** The download of the compressor *)

(** [downloadCompressedFile]: nothing without a result, else the anchor
    click with the result's file name and data. *)
Definition downloadCompressedFile (st : PdfCompressor.State) : option Download :=
  match PdfCompressor.result st with
  | None => None
  | Some result =>
    Some (PdfCompressor.fileName result, PdfCompressor.data result)
  end.

(** ** The compressor of components/PdfCompressor.tsx

    The first version of the component: the file is parsed and saved again
    by pdf-lib, nothing is rendered. *)
Module ComponentsPdfCompressor.

Record State := mkState {
  file : option File.t;
  isProcessing : bool;
  result : option PdfCompressor.CompressionResult;
  error : option string
}.

Definition initialState : State := mkState None false None None.

Definition handleFileAccepted (files : list File.t) (st : State) : State :=
  mkState (head files) (isProcessing st) None None.

Definition handleCompress `{PdfLib} (st : State) : State :=
  match file st with
  | None => st
  | Some file =>
    match
      match PDFDocument_load (File.arrayBuffer file) with
      | Some pdfDoc => PDFDocument_save pdfDoc
      | None => None
      end
    with
    | Some compressedBytes =>
      let originalSize := File.size file in
      let compressedSize := Z.of_nat (length compressedBytes) in
      let reduction :=
        number_mul
          (number_div (inject_Z (originalSize - compressedSize))
                      (inject_Z originalSize))
          100 in
      mkState (Some file) false
        (Some (PdfCompressor.mkResult originalSize compressedSize reduction
                 ("compressed-" +:+ File.name file) compressedBytes))
        None
    | None =>
      mkState (Some file) false None
        (Some "Failed to process the PDF. It might be corrupted or protected.")
    end
  end.

Definition downloadCompressedFile (st : State) : option Download :=
  match result st with
  | None => None
  | Some result =>
    Some (PdfCompressor.fileName result, PdfCompressor.data result)
  end.

Definition resetState (st : State) : State := mkState None false None None.

End ComponentsPdfCompressor.

(** ** Further inputs to run the handlers on *)


(** The first page of [mergerAB] dragged over the fourth. *)
Definition mergerDragging : PdfMerger.State :=
  PdfMerger.handleDragEnter 3 (PdfMerger.handleDragStart 0 mergerAB).

(** Source A with a reference to a ninth page. *)
Definition mergerBadIndex : PdfMerger.State :=
  PdfMerger.mkState [loadedA] [pageRef "a.pdf-1" 1; pageRef "a.pdf-1" 9]
    false None None None [].

(** A file that does not parse, and a drop of a text file and a PDF. *)
Definition fileBroken : File.t := File.mk "broken.pdf" [].
Definition droppedNotes : FileDropzone.PickedFile :=
  FileDropzone.mkPicked (File.mk "notes.txt" [Byte.x68; Byte.x69]) "text/plain".
Definition droppedA : FileDropzone.PickedFile :=
  FileDropzone.mkPicked fileA "application/pdf".

(** * Properties of PdfMerger *)

Section merger_pages.

Import PdfMerger.

Lemma setPages_same (st : State) : setPages (pages st) st = st.
Proof. by destruct st. Qed.

Lemma filter_id_ne_all (pid : string) (ps : list PageInProcessing.t) :
  Forall (fun p => PageInProcessing.id p ≠ pid) ps →
  filter (fun p => PageInProcessing.id p ≠ pid) ps = ps.
Proof.
  induction 1 as [|p ps Hp _ IH]; [done|].
  rewrite filter_cons_True by done. by rewrite IH.
Qed.

(** C8. [removePage] is total and idempotent: removing an id that no page
    carries leaves the state as it is (no error), and removing the same id a
    second time changes nothing more. *)
Theorem removePage_idempotent (pageId : string) (st : State) :
  (Forall (fun p => PageInProcessing.id p ≠ pageId) (pages st) →
   removePage pageId st = st) ∧
  removePage pageId (removePage pageId st) = removePage pageId st.
Proof.
  split.
  - intros Habsent. unfold removePage.
    rewrite filter_id_ne_all by done. apply setPages_same.
  - unfold removePage, setPages. simpl. f_equal.
    apply filter_id_ne_all, Forall_forall.
    intros p Hp. by apply list_elem_of_filter in Hp as [Hne _].
Qed.

Lemma removePage_idempotent_witness :
  removePage "c.pdf-3-page-0" mergerAB = mergerAB ∧
  removePage "a.pdf-1-page-1" (removePage "a.pdf-1-page-1" mergerAB)
  = removePage "a.pdf-1-page-1" mergerAB.
Proof.
  split.
  - apply (proj1 (removePage_idempotent "c.pdf-3-page-0" mergerAB)).
    repeat constructor; by vm_compute.
  - apply (proj2 (removePage_idempotent "a.pdf-1-page-1" mergerAB)).
Defined.

(** *** Drag and drop *)

Example splice_past_the_end :
  splice [1; 2; 3] 7 0 [9] = ([], [1; 2; 3; 9]).
Proof. reflexivity. Qed.

Example splice_negative_start :
  splice [1; 2; 3] (-1) 0 [9] = ([], [1; 2; 9; 3]).
Proof. reflexivity. Qed.

Lemma splice_start_nonneg (len : nat) (t : Z) :
  0 ≤ t → splice_start len t = Z.to_nat (Z.min t (Z.of_nat len)).
Proof.
  intros Ht. unfold splice_start.
  destruct (Z.ltb_spec t 0); [lia|done].
Qed.

Lemma splice_remove_one {A} (l : list A) (i : nat) (x : A) :
  l !! i = Some x → splice l (Z.of_nat i) 1 [] = ([x], delete i l).
Proof.
  intros Hi. pose proof (lookup_lt_Some _ _ _ Hi) as Hlt.
  unfold splice. rewrite splice_start_nonneg by lia.
  replace (Z.to_nat (Z.min (Z.of_nat i) (Z.of_nat (length l)))) with i by lia.
  f_equal.
  - rewrite (drop_S _ _ _ Hi). simpl. by rewrite take_0.
  - rewrite delete_take_drop. simpl. by rewrite Nat.add_1_r.
Qed.

Lemma splice_insert_one {A} (l : list A) (t : Z) (x : A) :
  0 ≤ t →
  splice l t 0 [x] = ([], insertAt (Z.to_nat (Z.min t (Z.of_nat (length l)))) x l).
Proof.
  intros Ht. unfold splice, insertAt. rewrite splice_start_nonneg by done.
  by rewrite take_0, Nat.add_0_r.
Qed.

Lemma insertAt_lookup {A} (k : nat) (x : A) (l : list A) :
  (k ≤ length l)%nat → insertAt k x l !! k = Some x.
Proof.
  intros Hk. unfold insertAt.
  rewrite lookup_app_r; rewrite length_take; [|lia].
  by replace (k - k `min` length l)%nat with 0%nat by lia.
Qed.

Lemma insertAt_delete {A} (k : nat) (x : A) (l : list A) :
  (k ≤ length l)%nat → delete k (insertAt k x l) = l.
Proof.
  intros Hk. unfold insertAt. rewrite delete_take_drop.
  rewrite take_app_le; [|rewrite length_take; lia].
  rewrite take_take. replace (k `min` k)%nat with k by lia.
  rewrite drop_app_ge; rewrite length_take; [|lia].
  replace (S k - k `min` length l)%nat with 1%nat by lia.
  simpl. by rewrite drop_0, take_drop.
Qed.

(** C3. Dropping the page dragged from position [i] onto position [t]
    ([moveTo] of the page at [i] to target index [t]): the page is first
    taken out, then put back in front of position [min t length] of the
    shortened sequence.  It then sits at that index, and without it the
    sequence is the old one without it, so all other pages keep their
    order.  Drop positions are array indices handed out by [pages.map], so
    they are not negative. *)
Theorem handleDrop_moveTo (st : State) (i : nat) (t : Z) (p : PageInProcessing.t) :
  dragItem st = Some (Z.of_nat i) →
  dragOverItem st = Some t →
  pages st !! i = Some p →
  0 ≤ t →
  let rest := delete i (pages st) in
  let k := Z.to_nat (Z.min t (Z.of_nat (length rest))) in
  ∃ st',
    handleDrop st = Some st' ∧
    pages st' = insertAt k p rest ∧
    pages st' !! k = Some p ∧
    delete k (pages st') = rest ∧
    length (pages st') = length (pages st) ∧
    loadedFiles st' = loadedFiles st.
Proof.
  intros Hdrag Hover Hp Ht rest k.
  assert (k ≤ length rest)%nat as Hk by (unfold k; lia).
  unfold handleDrop. rewrite Hdrag, Hover.
  rewrite (splice_remove_one _ _ _ Hp). cbn -[splice].
  rewrite splice_insert_one by done. fold rest k.
  eexists. split; [done|]. simpl. split_and!; [done|..|done].
  - by apply insertAt_lookup.
  - by apply insertAt_delete.
  - unfold insertAt. rewrite length_app. simpl. rewrite length_take, length_drop.
    pose proof (lookup_lt_Some _ _ _ Hp) as Hlt.
    assert (length rest = length (pages st) - 1)%nat as Hlen
      by (unfold rest; rewrite length_delete; [done|by eexists]).
    lia.
Qed.

Lemma handleDrop_moveTo_witness :
  ∃ st',
    handleDrop (handleDragEnter 3 (handleDragStart 0 mergerAB)) = Some st' ∧
    pages st' = [pageRef "b.pdf-2" 1; pageRef "a.pdf-1" 2; pageRef "b.pdf-2" 2;
                 pageRef "a.pdf-1" 1; pageRef "a.pdf-1" 3].
Proof.
  destruct (handleDrop_moveTo (handleDragEnter 3 (handleDragStart 0 mergerAB))
              0 3 (pageRef "a.pdf-1" 1))
    as (st' & Hdrop & Hpages & _); [reflexivity|reflexivity|reflexivity|lia|].
  exists st'. split; [exact Hdrop|exact Hpages].
Defined.

End merger_pages.

(** * Properties of the merge build *)

Section merger_build.

Context `{PdfLib}.
Import PdfMerger.

Implicit Types (lf : list LoadedPdfFile.t) (l : MergeLocals)
  (p : PageInProcessing.t) (ps : list PageInProcessing.t).


Lemma CacheOk_empty lf : CacheOk lf emptyLocals.
Proof.
  split; simpl.
  - intros sid doc Hl. by rewrite lookup_empty in Hl.
  - intros sid. rewrite lookup_empty. split; [by intros ?%elem_of_nil|by intros [? ?]].
  - constructor.
Qed.

Lemma copyPages_one (doc : list PDFPage) (i : Z) :
  copyPages doc [i] = (fun pg => [pg]) <$> getPage doc i.
Proof. unfold copyPages. simpl. by destruct (getPage doc i). Qed.


Lemma handleMerge_body_step lf l p : BodyStep lf l p (handleMerge_body lf l p).
Proof.
  unfold handleMerge_body, get_property.
  destruct (sourcePdfs l !! PageInProcessing.sourceFileId p) as [doc|] eqn:Hc.
  - rewrite Hc, copyPages_one.
    destruct (getPage doc _) as [pg|] eqn:Hpg; simpl.
    + by eapply step_cached.
    + by eapply step_cached_bad_index.
  - destruct (decide (_ ∈ Object_prototype_keys)) as [Hk|Hk].
    + rewrite Hc. by apply step_inherited.
    + fold (resolve lf (PageInProcessing.sourceFileId p)).
      destruct (resolve lf _) as [f|] eqn:Hr.
      * destruct (PDFDocument_load _) as [doc|] eqn:Hload; cbn -[copyPages].
        -- rewrite lookup_insert_eq, copyPages_one.
           destruct (getPage doc _) as [pg|] eqn:Hpg; simpl.
           ++ by eapply step_loaded.
           ++ by eapply step_loaded_bad_index.
        -- by eapply step_load_fails.
      * rewrite Hc. by apply step_unresolved.
Qed.

(** What one iteration leaves behind, whichever way it went. *)
Lemma handleMerge_body_calls lf l p :
  CacheOk lf l →
  let c := handleMerge_body lf l p in
  NoDup (loadCalls (completion_state c)) ∧
  (∀ sid, sid ∈ loadCalls (completion_state c) →
          sid ∈ loadCalls l ∨ sid = PageInProcessing.sourceFileId p) ∧
  (∀ l', c = Normal l' →
     CacheOk lf l' ∧
     (∀ sid, sid ∈ loadCalls l → sid ∈ loadCalls l') ∧
     (is_Some (resolve lf (PageInProcessing.sourceFileId p)) →
      PageInProcessing.sourceFileId p ∈ loadCalls l')).
Proof.
  intros [Hsound Hcalls Hnodup] c. subst c.
  assert (sourcePdfs l !! PageInProcessing.sourceFileId p = None →
          NoDup (loadCalls l ++ [PageInProcessing.sourceFileId p])) as Hfresh.
  { intros Hnone. apply NoDup_app. split_and!; [done| |apply NoDup_singleton].
    intros sid Hin ->%list_elem_of_singleton.
    apply Hcalls in Hin as [? Hsome]. congruence. }
  destruct (handleMerge_body_step lf l p)
    as [doc pg Hc Hpg|doc Hc Hpg|Hc Hk|Hc Hk Hr|f Hc Hk Hr Hload
        |f doc pg Hc Hk Hr Hload Hpg|f doc Hc Hk Hr Hload Hpg]; simpl.
  - split_and!; [done|by left|]. intros l' [= <-]. split_and!; simpl.
    + by split.
    + done.
    + intros _. apply Hcalls. by eexists.
  - split_and!; [done|by left|done].
  - split_and!; [done|by left|done].
  - split_and!; [done|by left|]. intros l' [= <-]. split_and!; [by split|done|].
    intros [? ?]. congruence.
  - split_and!; [by apply Hfresh| |done].
    intros sid [?| ->%list_elem_of_singleton]%elem_of_app; [by left|by right].
  - split_and!; [by apply Hfresh| |].
    + intros sid [?| ->%list_elem_of_singleton]%elem_of_app; [by left|by right].
    + intros l' [= <-]. split_and!; simpl.
      * split; simpl; [| |by apply Hfresh].
        -- intros sid doc'. rewrite lookup_insert.
           case_decide as Heq; [|by apply Hsound].
           intros [= <-]. subst sid. split; [done|by exists f].
        -- intros sid. rewrite elem_of_app, list_elem_of_singleton, lookup_insert.
           case_decide as Heq.
           ++ subst sid. split; [by eexists|by right].
           ++ rewrite Hcalls. split; [intros [?|?]; [done|congruence]|by left].
      * intros sid Hin. apply elem_of_app. by left.
      * intros _. apply elem_of_app. right. by apply list_elem_of_singleton.
  - split_and!; [by apply Hfresh| |done].
    intros sid [?| ->%list_elem_of_singleton]%elem_of_app; [by left|by right].
Qed.

Lemma handleMerge_loop_calls lf ps : ∀ l,
  CacheOk lf l →
  let c := handleMerge_loop lf l ps in
  NoDup (loadCalls (completion_state c)) ∧
  (∀ sid, sid ∈ loadCalls (completion_state c) →
          sid ∈ loadCalls l ∨ sid ∈ PageInProcessing.sourceFileId <$> ps) ∧
  (∀ l', c = Normal l' →
     CacheOk lf l' ∧
     (∀ sid, sid ∈ loadCalls l → sid ∈ loadCalls l') ∧
     (∀ p, p ∈ ps → is_Some (resolve lf (PageInProcessing.sourceFileId p)) →
           PageInProcessing.sourceFileId p ∈ loadCalls l')).
Proof.
  induction ps as [|p ps IH]; intros l Hok; simpl.
  - split_and!; [by destruct Hok|by left|].
    intros l' [= <-]. split_and!; [done|done|]. by intros p ?%elem_of_nil.
  - destruct (handleMerge_body_calls lf l p Hok) as (Hnd & Hsub & Hnormal).
    destruct (handleMerge_body lf l p) as [l1|l1] eqn:Hbody; simpl in *.
    + destruct (Hnormal l1 eq_refl) as (Hok1 & Hmono1 & Hin1).
      destruct (IH l1 Hok1) as (Hnd' & Hsub' & Hnormal').
      split_and!; [done| |].
      * intros sid Hin. destruct (Hsub' sid Hin) as [Hl1|Hps].
        -- destruct (Hsub sid Hl1) as [?| ->]; [by left|].
           right. apply elem_of_cons. by left.
        -- right. apply elem_of_cons. by right.
      * intros l' Hl'. destruct (Hnormal' l' Hl') as (Hok' & Hmono' & Hin').
        split_and!; [done|by auto|].
        intros q [->|Hq]%elem_of_cons Hres; [by auto|by apply Hin'].
    + split_and!; [done| |done].
      intros sid Hin. destruct (Hsub sid Hin) as [?| ->]; [by left|].
      right. apply elem_of_cons. by left.
Qed.

(** C7. Within one run of the merge loop [PDFDocument.load] is called at
    most once per source id: the recorded calls have no duplicate, only ids
    referenced by the working set are parsed, and when the loop completes
    every referenced id that resolves has been parsed (once, at its first
    page) and served from [sourcePdfs] afterwards. *)
Theorem handleMerge_parses_each_source_once lf ps :
  let c := handleMerge_loop lf emptyLocals ps in
  NoDup (loadCalls (completion_state c)) ∧
  (∀ sid, sid ∈ loadCalls (completion_state c) →
          sid ∈ PageInProcessing.sourceFileId <$> ps) ∧
  (∀ l', c = Normal l' →
     ∀ p, p ∈ ps → is_Some (resolve lf (PageInProcessing.sourceFileId p)) →
          PageInProcessing.sourceFileId p ∈ loadCalls l').
Proof.
  destruct (handleMerge_loop_calls lf ps emptyLocals (CacheOk_empty lf))
    as (Hnd & Hsub & Hnormal).
  split_and!; [done| |].
  - intros sid Hin. destruct (Hsub sid Hin) as [Hnil|?]; [|done].
    by apply elem_of_nil in Hnil.
  - intros l' Hl'. by destruct (Hnormal l' Hl') as (_ & _ & ?).
Qed.

(** *** Unresolved references *)

Lemma handleMerge_loop_app lf ps qs : ∀ l,
  handleMerge_loop lf l (ps ++ qs) =
  match handleMerge_loop lf l ps with
  | Normal l' => handleMerge_loop lf l' qs
  | Throw l' => Throw l'
  end.
Proof.
  induction ps as [|p ps IH]; intros l; simpl; [done|].
  destruct (handleMerge_body lf l p); [apply IH|done].
Qed.

Lemma handleMerge_body_unresolved lf l p :
  CacheOk lf l →
  resolve lf (PageInProcessing.sourceFileId p) = None →
  PageInProcessing.sourceFileId p ∉ Object_prototype_keys →
  handleMerge_body lf l p = Normal l.
Proof.
  intros Hok Hr Hk.
  destruct (handleMerge_body_step lf l p)
    as [doc pg Hc Hpg|doc Hc Hpg|Hc Hk'|Hc Hk' Hr'|f Hc Hk' Hr' Hload
        |f doc pg Hc Hk' Hr' Hload Hpg|f doc Hc Hk' Hr' Hload Hpg];
    try done; try congruence.
  - destruct (cache_sound _ _ Hok _ _ Hc) as (_ & f & Hf & _). congruence.
  - destruct (cache_sound _ _ Hok _ _ Hc) as (_ & f & Hf & _). congruence.
Qed.

(** C4, as the code has it. A reference whose [sourceFileId] resolves to no
    loaded file is passed over: nothing is appended for it, nothing is
    thrown, and the loop ends as it would without that reference.  (The id is
    taken not to be the name of a member every object inherits, which no
    [name-timestamp] id is.) *)
Theorem handleMerge_skips_unresolved lf (pre post : list PageInProcessing.t) p :
  resolve lf (PageInProcessing.sourceFileId p) = None →
  PageInProcessing.sourceFileId p ∉ Object_prototype_keys →
  handleMerge_loop lf emptyLocals (pre ++ p :: post) =
  handleMerge_loop lf emptyLocals (pre ++ post).
Proof.
  intros Hr Hk. rewrite !handleMerge_loop_app.
  destruct (handleMerge_loop_calls lf pre emptyLocals (CacheOk_empty lf))
    as (_ & _ & Hnormal).
  destruct (handleMerge_loop lf emptyLocals pre) as [l1|l1]; [|done].
  destruct (Hnormal l1 eq_refl) as (Hok1 & _). simpl.
  by rewrite handleMerge_body_unresolved.
Qed.

(** *** Well-formed working sets *)

Lemma referencedPage_resolved lf p f doc :
  resolve lf (PageInProcessing.sourceFileId p) = Some f →
  PDFDocument_load (File.arrayBuffer (LoadedPdfFile.file f)) = Some doc →
  referencedPage lf p = getPage doc (PageInProcessing.originalPageIndex p - 1).
Proof. intros Hr Hload. unfold referencedPage. by rewrite Hr, Hload. Qed.

Lemma getPage_in_range (doc : list PDFPage) (i : Z) :
  1 ≤ i ≤ Z.of_nat (length doc) → is_Some (getPage doc (i - 1)).
Proof.
  intros Hi. unfold getPage. destruct (Z.ltb_spec (i - 1) 0); [lia|].
  apply lookup_lt_is_Some. lia.
Qed.

Lemma handleMerge_body_ok lf l p :
  CacheOk lf l → PageRefOk lf p →
  ∃ l' pg,
    handleMerge_body lf l p = Normal l' ∧
    mergedPdf l' = mergedPdf l ++ [pg] ∧
    referencedPage lf p = Some pg.
Proof.
  intros Hok (Hk & f & doc & Hr & Hload & Hidx).
  destruct (getPage_in_range doc _ Hidx) as [pg Hpg].
  rewrite (referencedPage_resolved lf p f doc Hr Hload).
  destruct (handleMerge_body_step lf l p)
    as [doc' pg' Hc Hpg'|doc' Hc Hpg'|Hc Hk'|Hc Hk' Hr'|f' Hc Hk' Hr' Hload'
        |f' doc' pg' Hc Hk' Hr' Hload' Hpg'|f' doc' Hc Hk' Hr' Hload' Hpg'];
    try done; try congruence.
  - destruct (cache_sound _ _ Hok _ _ Hc) as (_ & f' & Hf' & Hload').
    assert (doc' = doc) as -> by congruence.
    eexists _, pg'. split_and!; [done|done|congruence].
  - destruct (cache_sound _ _ Hok _ _ Hc) as (_ & f' & Hf' & Hload').
    assert (doc' = doc) as -> by congruence. congruence.
  - assert (doc' = doc) as -> by congruence.
    eexists _, pg'. split_and!; [done|done|congruence].
Qed.

Lemma handleMerge_loop_ok lf ps : ∀ l,
  CacheOk lf l → Forall (PageRefOk lf) ps →
  ∃ l' out,
    handleMerge_loop lf l ps = Normal l' ∧
    mergedPdf l' = mergedPdf l ++ out ∧
    Forall2 (fun p pg => referencedPage lf p = Some pg) ps out.
Proof.
  induction ps as [|p ps IH]; intros l Hok Hps; simpl.
  - exists l, []. by rewrite app_nil_r.
  - apply Forall_cons in Hps as [Hp Hps].
    destruct (handleMerge_body_ok lf l p Hok Hp) as (l1 & pg & Hbody & Hm & Hpg).
    destruct (handleMerge_body_calls lf l p Hok) as (_ & _ & Hnormal).
    destruct (Hnormal l1 Hbody) as (Hok1 & _).
    rewrite Hbody.
    destruct (IH l1 Hok1 Hps) as (l' & out & Hloop & Hm' & Hout).
    exists l', (pg :: out). split_and!; [done| |by constructor].
    by rewrite Hm', Hm, <- app_assoc.
Qed.

Lemma PageRefOk_single (f : LoadedPdfFile.t) p :
  PageRefOk [f] p →
  ∃ doc,
    PDFDocument_load (File.arrayBuffer (LoadedPdfFile.file f)) = Some doc ∧
    referencedPage [f] p = getPage doc (PageInProcessing.originalPageIndex p - 1).
Proof.
  intros (_ & f' & doc & Hr & Hload & _).
  assert (f' = f) as ->.
  { unfold resolve in Hr. simpl in Hr. by case_bool_decide; simplify_eq. }
  exists doc. split; [done|]. by apply (referencedPage_resolved [f] p f doc).
Qed.

(** C1. For a working set that is not empty and keeps the invariants of the
    data model, the copy build hands [save] a document [out] with one page
    per reference, the [i]-th being the page at [originalPageIndex] of the
    source of the [i]-th reference.  This is the document of the merge loop
    and, when the registry is the single file of the splitter, the document
    of [handleCreatePdf]; once [save] succeeds it is what is downloaded. *)
Theorem buildByCopy_output lf ps :
  ps ≠ [] →
  Forall (PageRefOk lf) ps →
  ∃ out : list PDFPage,
    length out = length ps ∧
    (∀ i p, ps !! i = Some p →
       ∃ pg, referencedPage lf p = Some pg ∧ out !! i = Some pg) ∧
    (∃ l, handleMerge_loop lf emptyLocals ps = Normal l ∧ mergedPdf l = out) ∧
    (∀ st bytes,
       loadedFiles st = lf → pages st = ps →
       PDFDocument_save out = Some bytes →
       error (handleMerge st) = None ∧
       downloads (handleMerge st) = downloads st ++ [("merged.pdf", bytes)]) ∧
    (∀ f, lf = [f] → PdfSplitter.handleCreatePdf_newPdf f ps = Some out) ∧
    (∀ sst f bytes,
       lf = [f] → PdfSplitter.loadedFile sst = Some f →
       PdfSplitter.pages sst = ps →
       PDFDocument_save out = Some bytes →
       PdfSplitter.error (PdfSplitter.handleCreatePdf sst) = None ∧
       PdfSplitter.downloads (PdfSplitter.handleCreatePdf sst) =
       PdfSplitter.downloads sst
       ++ [("split-" +:+ File.name (LoadedPdfFile.file f), bytes)]).
Proof.
  intros Hne Hps.
  destruct (handleMerge_loop_ok lf ps emptyLocals (CacheOk_empty lf) Hps)
    as (l & out & Hloop & Hm & Hout).
  simpl in Hm.
  assert (length ps ≠ 0%nat) as Hlen by (by destruct ps).
  assert (∀ f, lf = [f] → PdfSplitter.handleCreatePdf_newPdf f ps = Some out)
    as Hsplit.
  { intros f ->. unfold PdfSplitter.handleCreatePdf_newPdf.
    destruct ps as [|p0 ps0]; [done|].
    destruct (PageRefOk_single f p0) as (doc & Hload & _);
      [by apply Forall_cons in Hps as [? _]|].
    rewrite Hload. unfold copyPages.
    assert (mapM (getPage doc)
              ((fun p => PageInProcessing.originalPageIndex p - 1)
                 <$> (p0 :: ps0)) = Some out) as ->; [|done].
    apply mapM_Some. apply Forall2_fmap_l.
    eapply Forall2_impl with
      (P := fun p pg => PageRefOk [f] p ∧ referencedPage [f] p = Some pg).
    - clear -Hps Hout. revert Hps Hout. generalize (p0 :: ps0).
      induction 2; [constructor|].
      apply Forall_cons in Hps as [? ?]. constructor; auto.
    - intros p pg [Hp Hpg]. simpl.
      destruct (PageRefOk_single f p Hp) as (doc' & Hload' & Href).
      congruence. }
  exists out. split_and!.
  - symmetry. by eapply Forall2_length.
  - intros i p Hi.
    destruct (Forall2_lookup_l _ _ _ _ _ Hout Hi) as (pg & Hpg & Href).
    by exists pg.
  - by exists l.
  - intros st bytes Hlf Hpages Hsave. unfold handleMerge.
    rewrite decide_False by (by rewrite Hpages). simpl.
    rewrite Hlf, Hpages, Hloop, Hm, Hsave. done.
  - done.
  - intros sst f bytes Hlf Hfile Hpages Hsave. unfold PdfSplitter.handleCreatePdf.
    rewrite Hfile. rewrite decide_False by (by rewrite Hpages). simpl.
    rewrite Hpages, (Hsplit f Hlf), Hsave. done.
Qed.

End merger_build.

(** *** The merge build on concrete working sets *)

Section merger_examples.

Import PdfMerger.

#[local] Existing Instance bytePdfLib.

Example handleMerge_interleaved :
  downloads (handleMerge mergerAB)
  = [("merged.pdf", [Byte.x01; Byte.x0a; Byte.x02; Byte.x0b; Byte.x03])].
Proof. vm_compute. reflexivity. Qed.

Example handleMerge_interleaved_loads :
  loadCalls (completion_state
               (handleMerge_loop (loadedFiles mergerAB) emptyLocals (pages mergerAB)))
  = ["a.pdf-1"; "b.pdf-2"].
Proof. vm_compute. reflexivity. Qed.

Example handleCreatePdf_split :
  PdfSplitter.pages splitterA = [pageRef "a.pdf-1" 1; pageRef "a.pdf-1" 3] ∧
  PdfSplitter.downloads (PdfSplitter.handleCreatePdf splitterA)
  = [("split-a.pdf", [Byte.x01; Byte.x03])].
Proof. vm_compute. split; reflexivity. Qed.

Lemma mergerAB_ok : Forall (PageRefOk (loadedFiles mergerAB)) (pages mergerAB).
Proof.
  repeat constructor; try compute_done;
    (eexists _, _; split_and!; [reflexivity|reflexivity|done|done]).
Defined.

Lemma buildByCopy_output_witness :
  ∃ out : list Byte.byte,
    length out = 5%nat ∧
    (∃ l, handleMerge_loop (loadedFiles mergerAB) emptyLocals (pages mergerAB)
          = Normal l ∧ mergedPdf l = out).
Proof.
  destruct (buildByCopy_output (loadedFiles mergerAB) (pages mergerAB))
    as (out & Hlen & _ & Hloop & _); [discriminate|exact mergerAB_ok|].
  exists out. split; [exact Hlen|exact Hloop].
Defined.

Lemma handleMerge_skips_unresolved_witness :
  handleMerge_loop [loadedA] emptyLocals
    ([pageRef "a.pdf-1" 1] ++ pageRef "gone.pdf-9" 1 :: [])
  = handleMerge_loop [loadedA] emptyLocals ([pageRef "a.pdf-1" 1] ++ []).
Proof.
  apply (handleMerge_skips_unresolved [loadedA] [pageRef "a.pdf-1" 1] []
           (pageRef "gone.pdf-9" 1)).
  - reflexivity.
  - compute_done.
Defined.

(** C4, as stated, fails: the second reference of [mergerDangling] resolves
    to nothing, yet the build reports no error and a one-page document is
    downloaded. *)
Lemma handleMerge_unresolved_counterexample :
  (∃ p, p ∈ pages mergerDangling ∧
        resolve (loadedFiles mergerDangling) (PageInProcessing.sourceFileId p) = None) ∧
  error (handleMerge mergerDangling) = None ∧
  downloads (handleMerge mergerDangling) = [("merged.pdf", [Byte.x01])].
Proof.
  split_and!.
  - exists (pageRef "gone.pdf-9" 1). split; [|reflexivity].
    apply elem_of_cons. right. apply elem_of_cons. by left.
  - vm_compute. reflexivity.
  - vm_compute. reflexivity.
Qed.

Lemma handleMerge_parses_each_source_once_witness :
  NoDup (loadCalls (completion_state
           (handleMerge_loop (loadedFiles mergerAB) emptyLocals (pages mergerAB)))) ∧
  "a.pdf-1" ∈ loadCalls (completion_state
           (handleMerge_loop (loadedFiles mergerAB) emptyLocals (pages mergerAB))).
Proof.
  destruct (handleMerge_parses_each_source_once
              (loadedFiles mergerAB) (pages mergerAB)) as (Hnd & _ & Hin).
  split; [exact Hnd|].
  eapply (Hin _ eq_refl (pageRef "a.pdf-1" 1)).
  - apply elem_of_cons. by left.
  - by eexists.
Defined.

End merger_examples.

(** * Loading a batch of files *)

Section merger_load.

Context `{PdfLib}.
Import PdfMerger.

Lemma allPagesOf_app (es1 es2 : list LoadedPdfFile.t) :
  allPagesOf (es1 ++ es2) = allPagesOf es1 ++ allPagesOf es2.
Proof. unfold allPagesOf. by rewrite fmap_app, concat_app. Qed.


Lemma handleFilesAccepted_loop_entries (now : nat → Z) (newFiles : list File.t) :
  ∀ k lf ps err,
  ∃ err',
    handleFilesAccepted_loop now k newFiles (lf, ps, err) =
    (lf ++ loadedEntries now k newFiles,
     ps ++ allPagesOf (loadedEntries now k newFiles), err').
Proof.
  induction newFiles as [|f fs IH]; intros k lf ps err; simpl.
  - exists err. unfold allPagesOf. simpl. by rewrite !app_nil_r.
  - destruct (PDFDocument_load (File.arrayBuffer f)) as [doc|].
    + destruct (IH (S k) (lf ++ [LoadedPdfFile.mk
                   (File.name f +:+ "-" +:+ number_to_string (now k)) f (length doc)])
                  (ps ++ newPagesOf (File.name f +:+ "-"
                                     +:+ number_to_string (now k)) (length doc))
                  err) as [err' ->].
      exists err'. rewrite allPagesOf_app, <- !app_assoc.
      unfold allPagesOf at 2. simpl. by rewrite app_nil_r.
    + destruct (IH (S k) lf ps (Some (couldNotProcess f))) as [err' ->].
      by exists err'.
Qed.


End merger_load.

Section merger_load_examples.

Import PdfMerger.
#[local] Existing Instance bytePdfLib.


(** Both files of the batch are loaded; stamped in the same millisecond they
    even share their id. *)
Example handleFilesAccepted_twice_a_pdf :
  let st' := handleFilesAccepted (fun _ => 1700000000000) [fileA; fileA'] initialState in
  loadedFiles st' =
    [LoadedPdfFile.mk "a.pdf-1700000000000" fileA 3;
     LoadedPdfFile.mk "a.pdf-1700000000000" fileA' 1] ∧
  length (pages st') = 4%nat.
Proof. vm_compute. split; reflexivity. Qed.


End merger_load_examples.

(** * The states the merger reaches keep the data model's invariants *)

Section merger_reachable.

Context `{PdfLib}.
Import PdfMerger.





Lemma RefersTo_mono (lf lf' : list LoadedPdfFile.t) p :
  lf ⊆ lf' → RefersTo lf p → RefersTo lf' p.
Proof. intros Hsub (e & He & ?). exists e. split; [by apply Hsub|done]. Qed.

Lemma loadedEntries_ok (now : nat → Z) (fs : list File.t) : ∀ k,
  Forall EntryOk (loadedEntries now k fs).
Proof.
  induction fs as [|f fs IH]; intros k; simpl; [constructor|].
  destruct (PDFDocument_load (File.arrayBuffer f)) as [doc|] eqn:Hload; simpl;
    [|apply IH].
  constructor; [|apply IH].
  split; simpl; [by exists doc|by exists (now k)].
Qed.

Lemma allPagesOf_refer (es : list LoadedPdfFile.t) :
  Forall (RefersTo es) (allPagesOf es).
Proof.
  apply Forall_forall. intros p Hp. unfold allPagesOf in Hp.
  apply list_elem_of_In, in_concat in Hp as (ps & Hps & Hp).
  apply list_elem_of_In in Hps, Hp.
  apply list_elem_of_fmap in Hps as (e & -> & He).
  unfold newPagesOf in Hp.
  apply list_elem_of_fmap in Hp as (i & -> & Hi).
  apply elem_of_seq in Hi. exists e. simpl. split_and!; first [done|lia].
Qed.

Lemma Loaded_initialState : Loaded initialState.
Proof. split; constructor. Qed.

Lemma Loaded_handleFilesAccepted (now : nat → Z) (accepted : list File.t)
    (st : State) :
  Loaded st → Loaded (handleFilesAccepted now accepted st).
Proof.
  intros [Hentries Hpages]. unfold handleFilesAccepted.
  case_decide as Hnew; [done|]. simpl.
  destruct (handleFilesAccepted_loop_entries now
              (filter (fun f => File.name f ∉
                 (list_to_set ((fun f => File.name (LoadedPdfFile.file f))
                                 <$> loadedFiles st) : gset string)) accepted)
              0%nat (loadedFiles st) (pages st) None) as [err' ->].
  split; simpl.
  - apply Forall_app. split; [done|apply loadedEntries_ok].
  - apply Forall_app. split.
    + eapply Forall_impl; [exact Hpages|].
      intros p. apply RefersTo_mono. set_solver.
    + eapply Forall_impl; [apply allPagesOf_refer|].
      intros p. apply RefersTo_mono. set_solver.
Qed.

Lemma Loaded_removePage (pageId : string) (st : State) :
  Loaded st → Loaded (removePage pageId st).
Proof.
  intros [Hentries Hpages]. split; simpl; [done|].
  apply Forall_forall. intros p Hp.
  apply list_elem_of_filter in Hp as [_ Hp].
  by apply (proj1 (Forall_forall _ _) Hpages).
Qed.

Lemma splice_subseteq {A} (l items : list A) (start : Z) (deleteCount : nat) :
  (splice l start deleteCount items).1 ⊆ l ∧
  (splice l start deleteCount items).2 ⊆ l ++ items.
Proof.
  unfold splice. simpl. split.
  - etrans; [apply subseteq_take|apply subseteq_drop].
  - intros x [Hx|[Hx|Hx]%elem_of_app]%elem_of_app; apply elem_of_app.
    + left. by eapply subseteq_take.
    + by right.
    + left. by eapply subseteq_drop.
Qed.

Lemma Loaded_handleDrop (st st' : State) :
  Loaded st → handleDrop st = Some st' → Loaded st'.
Proof.
  intros [Hentries Hpages]. unfold handleDrop.
  destruct (dragItem st) as [d|]; [|by intros [= <-]].
  destruct (dragOverItem st) as [o|]; [|by intros [= <-]].
  destruct (splice_subseteq (pages st) [] d 1) as [Hremoved Hrest].
  destruct (splice (pages st) d 1 []) as [removed newPages].
  cbn -[splice] in *.
  destruct (removed !! 0%nat) as [x|] eqn:Hx; [|done].
  destruct (splice_subseteq newPages [x] o 0) as [_ Hnew].
  destruct (splice newPages o 0 [x]) as [removed' newPages'].
  cbn -[splice] in *.
  intros [= <-]. split; simpl; [done|].
  apply Forall_forall. intros p Hp.
  apply (proj1 (Forall_forall _ _) Hpages).
  apply Hnew, elem_of_app in Hp as [Hp|Hp].
  - apply Hrest in Hp. by rewrite app_nil_r in Hp.
  - apply list_elem_of_singleton in Hp as ->.
    apply Hremoved. by eapply list_elem_of_lookup_2.
Qed.

End merger_reachable.

(** * Properties of the rasterizing build *)

Section compressor.

Context `{RasterSave}.
Import PdfCompressor.

Implicit Types (st : State) (doc : PDFDocumentProxy)
  (settings : option CompressionLevel) (newPdfDoc : list OutputPage.t).


Lemma rasterizePage_RasterOf (s : CompressionLevel) (page : PDFPageProxy)
    (out : OutputPage.t) :
  rasterizePage s page = Some out → RasterOf s page out.
Proof.
  unfold rasterizePage, RasterOf. cbv zeta.
  destruct (getContext_2d createElement_canvas); simpl; [|done].
  destruct (render _ _ _) as [canvas|] eqn:Hrender; [|done].
  destruct (embedJpg _) as [img|] eqn:Himg; [|done].
  intros [= <-]. exists canvas, img. split_and!; [done|done|reflexivity].
Qed.


Lemma pageEvents_cons (N i : nat) (idxs : list nat) :
  pageEvents N (i :: idxs)
  = SetProgress (progressText i N) :: PageDone i :: pageEvents N idxs.
Proof. done. Qed.

Lemma handleCompress_loop_spec doc (N : nat) settings : ∀ (n a : nat) st newPdfDoc,
  let c := handleCompress_loop doc N settings (st, newPdfDoc) (seq a n) in
  ∃ outs,
    (completion_state c).2 = newPdfDoc ++ outs ∧
    Forall2 (fun i out => rasterizeNth doc settings i = Some out)
            (seq a (length outs)) outs ∧
    (length outs ≤ n)%nat ∧
    (isNormal c → length outs = n) ∧
    (¬ isNormal c → (length outs < n)%nat) ∧
    events (completion_state c).1
    = events st ++ pageEvents N (seq a (length outs))
      ++ (if isNormal c then []
          else [SetProgress (progressText (a + length outs) N)]) ∧
    sameButProgress st (completion_state c).1.
Proof.
  induction n as [|n IH]; intros a st newPdfDoc; simpl.
  - exists []. simpl. rewrite !app_nil_r.
    split_and!; first [done|intros Hn; exfalso; by apply Hn].
  - destruct (pdfjs_getPage doc a) as [page|] eqn:Hpage;
      [destruct settings as [s|] eqn:Hs;
       [destruct (rasterizePage s page) as [out|] eqn:Hout|]|].
    + destruct (IH (S a) (pageDone a (setProgress (progressText a N) st))
                  (newPdfDoc ++ [out]))
        as (outs & Hdoc & Hshape & Hlen & Hnormal & Hthrown & Hev & Hframe).
      destruct (handleCompress_loop doc N (Some s) _ (seq (S a) n)) as [acc|acc];
        simpl in *.
      all: exists (out :: outs); simpl; split_and!;
        [by rewrite Hdoc, <- app_assoc
        |constructor; [by unfold rasterizeNth; rewrite Hpage|done]
        |lia
        |intros Hn; try done; by rewrite Hnormal
        |intros Hn; first [exfalso; by apply Hn|specialize (Hthrown Hn); lia]
        |rewrite Hev, <- !app_assoc; simpl; by rewrite ?Nat.add_succ_r
        |done].
    + exists []. simpl. rewrite app_nil_r, Nat.add_0_r.
      split_and!; first [done|lia|constructor|intros _; lia].
    + exists []. simpl. rewrite app_nil_r, Nat.add_0_r.
      split_and!; first [done|lia|constructor|intros _; lia].
    + exists []. simpl. rewrite app_nil_r, Nat.add_0_r.
      split_and!; first [done|lia|constructor|intros _; lia].
Qed.

Lemma handleCompress_loop_mapM doc (N : nat) settings :
  ∀ (n a : nat) st newPdfDoc outs,
  mapM (rasterizeNth doc settings) (seq a n) = Some outs →
  ∃ st',
    handleCompress_loop doc N settings (st, newPdfDoc) (seq a n)
    = Normal (st', newPdfDoc ++ outs).
Proof.
  induction n as [|n IH]; intros a st newPdfDoc outs; simpl.
  - intros [= <-]. exists st. by rewrite app_nil_r.
  - unfold rasterizeNth.
    destruct (pdfjs_getPage doc a) as [page|]; simpl; [|done].
    destruct settings as [s|]; simpl; [|done].
    destruct (rasterizePage s page) as [out|]; simpl; [|done].
    destruct (mapM _ (seq (S a) n)) as [outs'|] eqn:Hrest; simpl; [|done].
    intros [= <-].
    destruct (IH (S a) (pageDone a (setProgress (progressText a N) st))
                (newPdfDoc ++ [out]) outs' Hrest) as [st' ->].
    exists st'. by rewrite <- app_assoc.
Qed.

(** The loop completes exactly when every page can be fetched and
    rasterized. *)
Lemma handleCompress_loop_completes doc settings st :
  isNormal (handleCompress_loop doc (numPages doc) settings (st, [])
              (seq 1 (numPages doc)))
  ↔ is_Some (rasterizeAll doc settings).
Proof.
  split.
  - intros Hnormal.
    destruct (handleCompress_loop_spec doc (numPages doc) settings
                (numPages doc) 1 st [])
      as (outs & _ & Hshape & _ & Hlen & _).
    rewrite (Hlen Hnormal) in Hshape. exists outs. by apply mapM_Some_2.
  - intros [outs Hall].
    destruct (handleCompress_loop_mapM doc (numPages doc) settings
                (numPages doc) 1 st [] outs Hall) as [st' ->].
    done.
Qed.

(** C2. Every page the loop has appended, at position [i] of the new
    document, is the raster of source page [i + 1]: the viewport has scale
    [1.5 * settings.scale], the canvas is encoded as image/jpeg at
    [settings.quality], the new page has the viewport's width and height and
    the image is drawn once, at (0, 0), over that width and height.  When
    the loop completes there is one such page per source page. *)
Theorem buildByRasterize_page doc settings st :
  let c := handleCompress_loop doc (numPages doc) settings (st, [])
             (seq 1 (numPages doc)) in
  (∀ (i : nat) out,
     (completion_state c).2 !! i = Some out →
     ∃ s page,
       settings = Some s ∧ pdfjs_getPage doc (S i) = Some page ∧
       RasterOf s page out) ∧
  (isNormal c → length (completion_state c).2 = numPages doc).
Proof.
  intros c.
  destruct (handleCompress_loop_spec doc (numPages doc) settings
              (numPages doc) 1 st [])
    as (outs & Hdoc & Hshape & _ & Hnormal & _). fold c in Hdoc, Hnormal.
  simpl in Hdoc. rewrite Hdoc. split; [|done].
  intros i out Hi.
  destruct (Forall2_lookup_r _ _ _ _ _ Hshape Hi) as (j & Hj & Hout).
  apply lookup_seq in Hj as [-> _]. unfold rasterizeNth in Hout. simpl in Hout.
  destruct (pdfjs_getPage doc (S i)) as [page|]; [|done].
  destruct settings as [s|]; [|done].
  exists s, page. split_and!; [done|done|by apply rasterizePage_RasterOf].
Qed.

Lemma handleCompress_run st f doc newPdfDoc :
  file st = Some f →
  pdfjs_getDocument (File.arrayBuffer f) = Some doc →
  rasterizeAll doc (COMPRESSION_LEVELS !! compressionLevel st) = Some newPdfDoc →
  ∃ st1,
    events st1 = events st ++ [SetProgress "準備中..."]
                 ++ pageEvents (numPages doc) (seq 1 (numPages doc)) ∧
    error st1 = None ∧
    handleCompress st =
    setProgress "" (setIsProcessing false
      (match newPdfDoc_save newPdfDoc with
       | Some compressedBytes =>
         setResult
           (Some (mkResult (File.size f) (Z.of_nat (length compressedBytes))
                    (number_mul
                       (number_div
                          (inject_Z (File.size f - Z.of_nat (length compressedBytes)))
                          (inject_Z (File.size f))) 100)
                    ("compressed-" +:+ File.name f) compressedBytes))
           (setProgress "仕上げ処理中..." st1)
       | None =>
         setError
           (Some "圧縮中にエラーが発生しました。ファイルが壊れているか、保護されている可能性があります。")
           (setProgress "仕上げ処理中..." st1)
       end)).
Proof.
  intros Hfile Hdoc Hall.
  set (st0 := setProgress "準備中..."
                (setResult None (setError None (setIsProcessing true st)))).
  destruct (handleCompress_loop_mapM doc (numPages doc)
              (COMPRESSION_LEVELS !! compressionLevel st) (numPages doc) 1
              st0 [] newPdfDoc Hall) as [st1 Hloop].
  destruct (handleCompress_loop_spec doc (numPages doc)
              (COMPRESSION_LEVELS !! compressionLevel st)
              (numPages doc) 1 st0 [])
    as (outs & Hdoc' & _ & _ & Hnormal & _ & Hev & Hframe).
  rewrite Hloop in Hdoc', Hnormal, Hev, Hframe. simpl in *.
  rewrite (Hnormal I), app_nil_r in Hev.
  destruct Hframe as (_ & _ & _ & Herr & _).
  exists st1. split_and!.
  - rewrite Hev. simpl. by rewrite <- app_assoc.
  - by rewrite Herr.
  - unfold handleCompress. rewrite Hfile. fold st0.
    unfold handleCompress_try. rewrite Hdoc.
    assert (compressionLevel st0 = compressionLevel st) as -> by done.
    rewrite Hloop.
    by destruct (newPdfDoc_save newPdfDoc).
Qed.

Lemma handleCompress_run_throws st f doc :
  file st = Some f →
  pdfjs_getDocument (File.arrayBuffer f) = Some doc →
  rasterizeAll doc (COMPRESSION_LEVELS !! compressionLevel st) = None →
  ∃ k : nat,
    (k < numPages doc)%nat ∧
    events (handleCompress st)
    = events st ++ [SetProgress "準備中..."]
      ++ pageEvents (numPages doc) (seq 1 k)
      ++ [SetProgress (progressText (S k) (numPages doc)); SetProgress ""] ∧
    is_Some (error (handleCompress st)) ∧ result (handleCompress st) = None.
Proof.
  intros Hfile Hdoc Hall.
  set (st0 := setProgress "準備中..."
                (setResult None (setError None (setIsProcessing true st)))).
  pose proof (handleCompress_loop_completes doc
                (COMPRESSION_LEVELS !! compressionLevel st) st0) as Hiff.
  destruct (handleCompress_loop_spec doc (numPages doc)
              (COMPRESSION_LEVELS !! compressionLevel st)
              (numPages doc) 1 st0 [])
    as (outs & _ & _ & _ & _ & Hthrown & Hev & Hframe).
  unfold handleCompress. rewrite Hfile. fold st0.
  unfold handleCompress_try. rewrite Hdoc.
  assert (compressionLevel st0 = compressionLevel st) as -> by done.
  destruct (handleCompress_loop doc (numPages doc) _ (st0, []) _)
    as [[st1 newPdfDoc]|[st1 newPdfDoc]]; simpl in *.
  - rewrite Hall in Hiff. by destruct (proj1 Hiff I) as [? ?].
  - destruct Hframe as (_ & _ & Hres & _).
    exists (length outs). split_and!.
    + apply Hthrown. by intros [].
    + rewrite Hev. by rewrite <- !app_assoc.
    + by eexists.
    + by rewrite Hres.
Qed.

(** C6, as the code has it. The pages are taken one after the other and
    the report "i / N ..." is issued when the work on page [i] begins, after
    page [i - 1] was appended.  In a run that gets through all its pages the
    events between the opening and the closing message are report 1, page 1,
    report 2, page 2, up to report N, page N; a run that fails at a page
    shows the same events up to the report for that page. *)
Theorem handleCompress_progress_order st f doc :
  file st = Some f →
  pdfjs_getDocument (File.arrayBuffer f) = Some doc →
  let N := numPages doc in
  let built := rasterizeAll doc (COMPRESSION_LEVELS !! compressionLevel st) in
  (is_Some built ∧
   events (handleCompress st)
   = events st ++ [SetProgress "準備中..."]
     ++ pageEvents N (seq 1 N)
     ++ [SetProgress "仕上げ処理中..."; SetProgress ""]) ∨
  (built = None ∧
   ∃ k : nat,
     (k < N)%nat ∧
     events (handleCompress st)
     = events st ++ [SetProgress "準備中..."]
       ++ pageEvents N (seq 1 k)
       ++ [SetProgress (progressText (S k) N); SetProgress ""]).
Proof.
  intros Hfile Hdoc N built.
  destruct built as [newPdfDoc|] eqn:Hall; subst built.
  - left. split; [by eexists|].
    destruct (handleCompress_run st f doc newPdfDoc Hfile Hdoc Hall)
      as (st1 & Hev & _ & ->).
    destruct (newPdfDoc_save newPdfDoc); simpl; rewrite Hev;
      by rewrite <- !app_assoc.
  - right. split; [done|].
    destruct (handleCompress_run_throws st f doc Hfile Hdoc Hall)
      as (k & Hk & Hev & _).
    by exists k.
Qed.

Lemma reduction_negative (o c : Z) :
  0 ≤ o → o < c →
  number_negative (number_mul (number_div (inject_Z (o - c)) (inject_Z o)) 100).
Proof.
  intros Ho Hc. unfold number_div.
  destruct (Qeq_bool (inject_Z o) 0) eqn:E.
  - apply Qeq_bool_iff in E. unfold Qeq in E. simpl in E.
    assert (o = 0) as -> by lia.
    destruct (Qlt_le_dec 0 (inject_Z (0 - c))) as [Hpos|_].
    + unfold Qlt in Hpos. simpl in Hpos. lia.
    + destruct (Qlt_le_dec (inject_Z (0 - c)) 0) as [_|Hge].
      * simpl. destruct (Qlt_le_dec 0 100) as [_|Hbad]; [exact I|].
        unfold Qle in Hbad. simpl in Hbad. lia.
      * unfold Qle in Hge. simpl in Hge. lia.
  - apply Qeq_bool_neq in E. simpl.
    assert (0 < o) as Hpos.
    { destruct (Z.eq_dec o 0) as [->|]; [|lia]. exfalso. by apply E. }
    assert (o - c < 0) as Hd by lia.
    destruct o as [|p|p]; try lia.
    generalize dependent (Z.pos p - c). intros d Hd.
    unfold Qlt, Qdiv, Qmult, Qinv. simpl. lia.
Qed.

(** C10. A run that gets through its pages and whose [save] succeeds sets
    no error and sets the result, whatever the sizes: the reduction is
    [(originalSize - compressedSize) / originalSize * 100], and it is
    negative as soon as the output is larger than the input. *)
Theorem handleCompress_reports_result st f doc newPdfDoc compressedBytes :
  file st = Some f →
  pdfjs_getDocument (File.arrayBuffer f) = Some doc →
  rasterizeAll doc (COMPRESSION_LEVELS !! compressionLevel st) = Some newPdfDoc →
  newPdfDoc_save newPdfDoc = Some compressedBytes →
  let originalSize := File.size f in
  let compressedSize := Z.of_nat (length compressedBytes) in
  let reduction :=
    number_mul
      (number_div (inject_Z (originalSize - compressedSize))
                  (inject_Z originalSize)) 100 in
  result (handleCompress st)
  = Some (mkResult originalSize compressedSize reduction
            ("compressed-" +:+ File.name f) compressedBytes) ∧
  error (handleCompress st) = None ∧
  isProcessing (handleCompress st) = false ∧
  (originalSize < compressedSize → number_negative reduction).
Proof.
  intros Hfile Hdoc Hall Hsave osz csz red.
  destruct (handleCompress_run st f doc newPdfDoc Hfile Hdoc Hall)
    as (st1 & _ & Herr & ->).
  rewrite Hsave. simpl. split_and!; [done|done|done|].
  intros Hlarger. apply reduction_negative; [|done].
  unfold osz, File.size. lia.
Qed.

End compressor.

(** * Builds on an empty input *)

Section empty_input.

Context `{PdfLib} `{RasterSave}.

(** C5, as the code has it. With no page in the working set the merge and
    the split builds set their error message and do nothing else, so
    nothing is downloaded.  The compressor has no working set: with no file
    chosen [handleCompress] returns the state as it is, without an error
    and without a result. *)
Theorem build_on_empty_input (mst : PdfMerger.State) (sst : PdfSplitter.State)
    (cst : PdfCompressor.State) :
  PdfMerger.pages mst = [] →
  PdfSplitter.loadedFile sst = None ∨ PdfSplitter.pages sst = [] →
  PdfCompressor.file cst = None →
  PdfMerger.handleMerge mst
  = PdfMerger.setError
      (Some "No pages to merge. Please add some PDF files.") mst ∧
  PdfMerger.downloads (PdfMerger.handleMerge mst) = PdfMerger.downloads mst ∧
  PdfSplitter.handleCreatePdf sst
  = PdfSplitter.setError (Some "No pages to create a PDF from.") sst ∧
  PdfSplitter.downloads (PdfSplitter.handleCreatePdf sst)
  = PdfSplitter.downloads sst ∧
  PdfCompressor.handleCompress cst = cst.
Proof.
  intros Hm Hs Hc.
  assert (PdfMerger.handleMerge mst
          = PdfMerger.setError
              (Some "No pages to merge. Please add some PDF files.") mst) as Hmerge.
  { unfold PdfMerger.handleMerge. by rewrite Hm. }
  assert (PdfSplitter.handleCreatePdf sst
          = PdfSplitter.setError (Some "No pages to create a PDF from.") sst)
    as Hsplit.
  { unfold PdfSplitter.handleCreatePdf.
    destruct (PdfSplitter.loadedFile sst) as [lf|]; [|done].
    destruct Hs as [?|Hs]; [done|]. by rewrite Hs. }
  split_and!; [done|by rewrite Hmerge|done|by rewrite Hsplit|].
  unfold PdfCompressor.handleCompress. by rewrite Hc.
Qed.

End empty_input.

(** *** The compressor on concrete files *)

Section compressor_examples.

Import PdfCompressor.

#[local] Existing Instance toyRasterizer.
#[local] Existing Instance toyRasterSave.
#[local] Existing Instance bytePdfLib.

(** A two-byte file becomes sixteen bytes: the run succeeds all the same
    and reports a reduction of -700 percent. *)
Example handleCompress_larger_output :
  let st' := handleCompress (compressorWith onePageFile) in
  error st' = None ∧
  (originalSize <$> result st') = Some 2 ∧
  (compressedSize <$> result st') = Some 16 ∧
  (reduction <$> result st') = Some (Finite (-1400 # 2)).
Proof. vm_compute. split_and!; reflexivity. Qed.

Example handleCompress_one_page_events :
  events (handleCompress (compressorWith onePageFile))
  = [SetProgress ""; SetProgress "準備中...";
     SetProgress "1 / 1 ページ目を処理中..."; PageDone 1;
     SetProgress "仕上げ処理中..."; SetProgress ""].
Proof. vm_compute. reflexivity. Qed.

(** A file without pages is compressed, too: no error, and a result. *)
Example handleCompress_no_page :
  let st' := handleCompress (compressorWith noPageFile) in
  error st' = None ∧ is_Some (result st').
Proof. vm_compute. split; [reflexivity|by eexists]. Qed.

Lemma buildByRasterize_page_witness :
  ∃ out s page,
    (completion_state
       (handleCompress_loop onePageDoc 1 (COMPRESSION_LEVELS !! 0%nat)
          (compressorWith onePageFile, []) (seq 1 1))).2 !! 0%nat = Some out ∧
    COMPRESSION_LEVELS !! 0%nat = Some s ∧
    pdfjs_getPage onePageDoc 1 = Some page ∧
    RasterOf s page out.
Proof.
  destruct ((completion_state
       (handleCompress_loop onePageDoc 1 (COMPRESSION_LEVELS !! 0%nat)
          (compressorWith onePageFile, []) (seq 1 1))).2 !! 0%nat)
    as [out|] eqn:Hout; [|vm_compute in Hout; discriminate].
  destruct (proj1 (buildByRasterize_page (H := toyRasterizer) onePageDoc
                     (COMPRESSION_LEVELS !! 0%nat)
                     (compressorWith onePageFile)) 0%nat out Hout)
    as (s & page & Hs & Hpage & Hraster).
  exists out, s, page. split_and!; [reflexivity|exact Hs|exact Hpage|exact Hraster].
Defined.

(** C6, as stated, fails: in the run on the one-page file the report for
    page 1 is issued before page 1 is done, not after. *)
Lemma handleCompress_progress_counterexample :
  ¬ reportedAfterCompletion
      (events (handleCompress (compressorWith onePageFile))) 1 1.
Proof.
  rewrite handleCompress_one_page_events.
  intros (a & b & Hlt & Ha & Hb).
  assert (a = 3%nat) as ->.
  { do 6 (destruct a as [|a]; [first [discriminate Ha|reflexivity]|]).
    discriminate Ha. }
  assert (b = 2%nat) as ->.
  { do 6 (destruct b as [|b]; [first [discriminate Hb|reflexivity]|]).
    discriminate Hb. }
  lia.
Qed.

Lemma handleCompress_progress_order_witness :
  events (handleCompress (compressorWith onePageFile))
  = events (compressorWith onePageFile) ++ [SetProgress "準備中..."]
    ++ pageEvents 1 (seq 1 1)
    ++ [SetProgress "仕上げ処理中..."; SetProgress ""].
Proof.
  destruct (handleCompress_progress_order (compressorWith onePageFile)
              onePageFile onePageDoc eq_refl eq_refl)
    as [[_ Hev]|[Hnone _]]; [exact Hev|discriminate Hnone].
Defined.

Lemma handleCompress_reports_result_witness :
  error (handleCompress (compressorWith onePageFile)) = None ∧
  number_negative
    (number_mul (number_div (inject_Z (2 - 16)) (inject_Z 2)) 100).
Proof.
  edestruct (handleCompress_reports_result (compressorWith onePageFile)
               onePageFile onePageDoc)
    as (_ & Herr & _ & Hneg); [reflexivity..|].
  split; [exact Herr|]. apply Hneg. vm_compute. reflexivity.
Defined.

(** C5, as stated, fails for the compressor: with no file chosen no error
    is set. *)
Lemma handleCompress_empty_counterexample :
  file initialState = None ∧
  ¬ is_Some (error (handleCompress initialState)).
Proof. split; [reflexivity|]. vm_compute. by intros [? ?]. Qed.

Lemma build_on_empty_input_witness :
  PdfMerger.handleMerge PdfMerger.initialState
  = PdfMerger.setError
      (Some "No pages to merge. Please add some PDF files.")
      PdfMerger.initialState ∧
  PdfSplitter.handleCreatePdf PdfSplitter.initialState
  = PdfSplitter.setError (Some "No pages to create a PDF from.")
      PdfSplitter.initialState ∧
  handleCompress initialState = initialState.
Proof.
  destruct (build_on_empty_input PdfMerger.initialState
              PdfSplitter.initialState initialState)
    as (Hm & _ & Hs & _ & Hc); [reflexivity|left; reflexivity|reflexivity|].
  split_and!; [exact Hm|exact Hs|exact Hc].
Defined.

End compressor_examples.


(** * More on loading files into the merger *)

Section merger_load_more.

Context `{PdfLib}.
Import PdfMerger.

Implicit Types (st : State) (fs : list File.t).

Lemma handleFilesAccepted_unfold (now : nat → Z) (accepted : list File.t) st :
  newFilesOf st accepted ≠ [] →
  ∃ err,
    handleFilesAccepted now accepted st
    = mkState (loadedFiles st ++ loadedEntries now 0 (newFilesOf st accepted))
              (pages st ++ allPagesOf (loadedEntries now 0 (newFilesOf st accepted)))
              false err (dragItem st) (dragOverItem st) (downloads st) ∧
    handleFilesAccepted_loop now 0 (newFilesOf st accepted)
      (loadedFiles st, pages st, None)
    = (loadedFiles st ++ loadedEntries now 0 (newFilesOf st accepted),
       pages st ++ allPagesOf (loadedEntries now 0 (newFilesOf st accepted)),
       err).
Proof.
  intros Hne. unfold handleFilesAccepted. simpl. fold (newFilesOf st accepted).
  rewrite decide_False by (by intros ?%nil_length_inv).
  destruct (handleFilesAccepted_loop_entries now (newFilesOf st accepted)
              0%nat (loadedFiles st) (pages st) None) as [err Hloop].
  exists err. by rewrite Hloop.
Qed.

Lemma loadedEntries_elem (now : nat → Z) fs e : ∀ k,
  e ∈ loadedEntries now k fs → LoadedPdfFile.file e ∈ fs.
Proof.
  induction fs as [|f fs IH]; intros k; simpl.
  - by intros ?%elem_of_nil.
  - intros [He|He]%elem_of_app.
    + destruct (PDFDocument_load (File.arrayBuffer f)); simpl in He.
      * apply list_elem_of_singleton in He as ->. simpl.
        apply elem_of_cons. by left.
      * by apply elem_of_nil in He.
    + apply elem_of_cons. right. by eapply IH.
Qed.

(** X1. Loading a batch only appends: the registry and the working set of
    before are kept in front, and every entry added is a file of the batch
    that parses and whose name no loaded file had; the pages added are the
    page references of these entries.  Nothing is downloaded. *)
Theorem handleFilesAccepted_appends (now : nat → Z) (accepted : list File.t) st :
  let st' := handleFilesAccepted now accepted st in
  ∃ added,
    loadedFiles st' = loadedFiles st ++ added ∧
    pages st' = pages st ++ allPagesOf added ∧
    downloads st' = downloads st ∧
    ∀ e, e ∈ added →
      LoadedPdfFile.file e ∈ accepted ∧
      (File.name (LoadedPdfFile.file e)
         ∉ (fun f => File.name (LoadedPdfFile.file f)) <$> loadedFiles st) ∧
      EntryOk e.
Proof.
  intros st'. subst st'.
  destruct (newFilesOf st accepted) as [|f0 fs0] eqn:Hnew.
  - exists []. unfold handleFilesAccepted, allPagesOf. simpl.
    fold (newFilesOf st accepted). rewrite Hnew.
    simpl. rewrite !app_nil_r. split_and!; [done|done|done|].
    by intros e ?%elem_of_nil.
  - destruct (handleFilesAccepted_unfold now accepted st) as (err & -> & _);
      [by rewrite Hnew|].
    exists (loadedEntries now 0 (newFilesOf st accepted)). simpl.
    split_and!; [done|done|done|].
    intros e He.
    pose proof (loadedEntries_elem _ _ _ _ He) as Hfile.
    unfold newFilesOf in Hfile.
    apply list_elem_of_filter in Hfile as [Hname Hacc].
    split_and!; [done| |].
    + by rewrite elem_of_list_to_set in Hname.
    + by apply (proj1 (Forall_forall _ _)
                  (loadedEntries_ok now (newFilesOf st accepted) 0%nat)).
Qed.

(** X2. A batch in which every file carries the name of a loaded file adds
    nothing, whatever the files hold: only the error is cleared. *)
Theorem handleFilesAccepted_known_names (now : nat → Z) (accepted : list File.t) st :
  Forall (fun f => File.name f
            ∈ (fun e => File.name (LoadedPdfFile.file e)) <$> loadedFiles st)
         accepted →
  handleFilesAccepted now accepted st = setError None st.
Proof.
  intros Hknown. unfold handleFilesAccepted.
  assert (newFilesOf st accepted = []) as Hnone.
  { unfold newFilesOf. induction Hknown as [|f fs Hf _ IH]; [done|].
    rewrite filter_cons_False; [done|].
    intros Hnot. apply Hnot. by rewrite elem_of_list_to_set. }
  simpl. fold (newFilesOf st accepted). by rewrite Hnone.
Qed.

Lemma handleFilesAccepted_loop_error (now : nat → Z) fs : ∀ k lf ps err,
  (handleFilesAccepted_loop now k fs (lf, ps, err)).2
  = match last (filter (fun f => ¬ is_Some (PDFDocument_load (File.arrayBuffer f)))
                  fs) with
    | Some f => Some (couldNotProcess f)
    | None => err
    end.
Proof.
  induction fs as [|f fs IH]; intros k lf ps err; simpl; [done|].
  destruct (PDFDocument_load (File.arrayBuffer f)) as [doc|] eqn:Hload.
  - rewrite filter_cons_False by (intros Hn; apply Hn; rewrite Hload; by eexists).
    apply IH.
  - rewrite filter_cons_True by (rewrite Hload; by intros [? ?]).
    rewrite IH, last_cons. by destruct (last _).
Qed.

Lemma loadedEntries_loaded (now : nat → Z) fs f : ∀ k,
  f ∈ fs → is_Some (PDFDocument_load (File.arrayBuffer f)) →
  f ∈ LoadedPdfFile.file <$> loadedEntries now k fs.
Proof.
  induction fs as [|g fs IH]; intros k; simpl.
  - by intros ?%elem_of_nil.
  - intros [->|Hin]%elem_of_cons [doc Hdoc]; rewrite fmap_app, elem_of_app.
    + left. rewrite Hdoc. simpl. apply elem_of_cons. by left.
    + right. apply IH; [done|by eexists].
Qed.

Lemma handleFilesAccepted_error (now : nat → Z) (accepted : list File.t) st :
  error (handleFilesAccepted now accepted st)
  = couldNotProcess
      <$> last (filter (fun f => ¬ is_Some (PDFDocument_load (File.arrayBuffer f)))
                  (newFilesOf st accepted)).
Proof.
  destruct (decide (newFilesOf st accepted = [])) as [Hnew|Hnew].
  - rewrite Hnew. unfold handleFilesAccepted. simpl.
    fold (newFilesOf st accepted). by rewrite Hnew.
  - destruct (handleFilesAccepted_unfold now accepted st Hnew)
      as (err & -> & Hloop).
    cbn [error].
    pose proof (handleFilesAccepted_loop_error now (newFilesOf st accepted)
                  0%nat (loadedFiles st) (pages st) None) as Herr.
    rewrite Hloop in Herr. cbn [snd] in Herr. rewrite Herr.
    by destruct (last _).
Qed.

(** X3. A file that does not parse does not stop the batch: every file
    taken that parses is in the registry afterwards, and the error shown is
    the message for the last file taken that failed, or none when all
    parsed. *)
Theorem handleFilesAccepted_bad_file (now : nat → Z) (accepted : list File.t) st :
  let st' := handleFilesAccepted now accepted st in
  (∀ f, f ∈ newFilesOf st accepted →
        is_Some (PDFDocument_load (File.arrayBuffer f)) →
        f ∈ LoadedPdfFile.file <$> loadedFiles st') ∧
  error st'
  = couldNotProcess
      <$> last (filter (fun f => ¬ is_Some (PDFDocument_load (File.arrayBuffer f)))
                  (newFilesOf st accepted)).
Proof.
  intros st'. subst st'. split; [|apply handleFilesAccepted_error].
  intros f Hf Hparse.
  assert (newFilesOf st accepted ≠ []) as Hnew
    by (intros Hnil; rewrite Hnil in Hf; by apply elem_of_nil in Hf).
  destruct (handleFilesAccepted_unfold now accepted st Hnew) as (err & -> & _).
  cbn [loadedFiles]. rewrite fmap_app, elem_of_app. right.
  by apply loadedEntries_loaded.
Qed.

(** X4. A batch of one file that parses to [N] pages adds one registry
    entry, stamped with the time of the load, and [N] page references to the
    end of the working set: the [i]-th has [originalPageIndex] [i + 1] and
    the id [fileId-page-i]; these ids are pairwise distinct. *)
Theorem handleFilesAccepted_one_file (now : nat → Z) (f : File.t)
    (doc : list PDFPage) st :
  File.name f ∉ (fun e => File.name (LoadedPdfFile.file e)) <$> loadedFiles st →
  PDFDocument_load (File.arrayBuffer f) = Some doc →
  let st' := handleFilesAccepted now [f] st in
  let fileId := File.name f +:+ "-" +:+ number_to_string (now 0%nat) in
  ∃ added,
    loadedFiles st'
    = loadedFiles st ++ [LoadedPdfFile.mk fileId f (length doc)] ∧
    pages st' = pages st ++ added ∧
    length added = length doc ∧
    (∀ i : nat, (i < length doc)%nat →
       added !! i
       = Some (PageInProcessing.mk
                 (fileId +:+ "-page-" +:+ number_to_string (Z.of_nat i))
                 fileId (Z.of_nat i + 1))) ∧
    NoDup (PageInProcessing.id <$> added) ∧
    error st' = None ∧ isProcessing st' = false.
Proof.
  intros Hname Hload st' fileId. subst st'.
  assert (newFilesOf st [f] = [f]) as Hnew.
  { unfold newFilesOf. rewrite filter_cons_True; [done|].
    by rewrite elem_of_list_to_set. }
  pose proof (handleFilesAccepted_error now [f] st) as Herr.
  destruct (handleFilesAccepted_unfold now [f] st) as (err & Hst & _);
    [by rewrite Hnew|].
  simpl in Herr. rewrite Hst in *. rewrite Hnew in *. simpl in *.
  rewrite Hload in *. simpl in *.
  rewrite filter_cons_False in Herr
    by (intros Hn; apply Hn; rewrite Hload; by eexists).
  exists (newPagesOf fileId (length doc)).
  unfold allPagesOf. simpl. rewrite app_nil_r.
  split_and!; [done|done| | | |done|done].
  - unfold newPagesOf. by rewrite length_fmap, length_seq.
  - intros i Hi. unfold newPagesOf. rewrite list_lookup_fmap, lookup_seq_lt by done.
    done.
  - unfold newPagesOf. rewrite <- list_fmap_compose.
    apply NoDup_fmap_2_strong; [|apply NoDup_seq].
    intros i j _ _ Heq. simpl in Heq.
    apply (inj (String.app fileId)) in Heq.
    apply (inj (String.app "-page-")) in Heq.
    apply (inj number_to_string) in Heq. lia.
Qed.

End merger_load_more.

(** * Page ids *)

Section page_ids.












End page_ids.

(** * More on the working set of the merger *)

Section merger_working_set.

Context `{PdfLib}.
Import PdfMerger.

Implicit Types (st : State) (p : PageInProcessing.t).

Lemma splice_removed_Permutation {A} (l : list A) (start : Z) (deleteCount : nat) :
  l ≡ₚ (splice l start deleteCount []).1 ++ (splice l start deleteCount []).2.
Proof.
  unfold splice. simpl. set (s := splice_start (length l) start).
  rewrite <- (take_drop s l) at 1.
  rewrite <- (take_drop deleteCount (drop s l)) at 1.
  rewrite drop_drop. by rewrite (Permutation_app_swap_app (take s l)).
Qed.

Lemma splice_inserted_Permutation {A} (l items : list A) (start : Z) :
  (splice l start 0 items).2 ≡ₚ items ++ l.
Proof.
  unfold splice. simpl. set (s := splice_start (length l) start).
  rewrite Nat.add_0_r, Permutation_app_swap_app. by rewrite take_drop.
Qed.

Lemma handleDrop_Permutation st st' :
  handleDrop st = Some st' →
  pages st' ≡ₚ pages st ∧ loadedFiles st' = loadedFiles st ∧
  error st' = error st ∧ downloads st' = downloads st ∧
  isProcessing st' = isProcessing st.
Proof.
  unfold handleDrop.
  destruct (dragItem st) as [d|]; [|by intros [= <-]].
  destruct (dragOverItem st) as [o|]; [|by intros [= <-]].
  pose proof (splice_removed_Permutation (pages st) d 1) as Hperm.
  assert (length (splice (pages st) d 1 []).1 ≤ 1)%nat as Hone.
  { unfold splice. simpl. rewrite length_take. lia. }
  destruct (splice (pages st) d 1 []) as [removed newPages].
  cbn -[splice] in *.
  destruct removed as [|x [|y removed]]; cbn -[splice] in *; [done| |lia].
  pose proof (splice_inserted_Permutation newPages [x] o) as Hperm'.
  destruct (splice newPages o 0 [x]) as [removed' newPages'].
  cbn -[splice] in *.
  intros [= <-]. simpl. split_and!; try done.
  by rewrite Hperm, Hperm'.
Qed.





Lemma filter_id_ne_delete (ps : list PageInProcessing.t) (i : nat) p :
  NoDup (PageInProcessing.id <$> ps) → ps !! i = Some p →
  filter (fun q => PageInProcessing.id q ≠ PageInProcessing.id p) ps
  = delete i ps.
Proof.
  revert i. induction ps as [|q ps IH]; intros i Hnd Hi; [done|].
  rewrite fmap_cons, NoDup_cons in Hnd. destruct Hnd as [Hq Hnd].
  destruct i as [|i]; simpl in Hi.
  - injection Hi as ->. rewrite filter_cons_False by (intros Hn; by apply Hn).
    simpl. apply filter_id_ne_all, Forall_forall. intros r Hr Heq.
    apply Hq. rewrite <- Heq. by apply list_elem_of_fmap_2.
  - rewrite filter_cons_True.
    + simpl. f_equal. by apply IH.
    + intros Heq. apply Hq. rewrite Heq.
      apply list_elem_of_fmap_2. by eapply list_elem_of_lookup_2.
Qed.

(** X6. When the page ids of the working set are pairwise distinct,
    [removePage] with the id of the page at position [i] takes out that page
    and no other: the working set becomes the old one without position [i],
    and nothing else of the state changes. *)
Theorem removePage_deletes_one st (i : nat) p :
  NoDup (PageInProcessing.id <$> pages st) →
  pages st !! i = Some p →
  removePage (PageInProcessing.id p) st = setPages (delete i (pages st)) st ∧
  length (pages (removePage (PageInProcessing.id p) st))
  = (length (pages st) - 1)%nat.
Proof.
  intros Hnd Hi. unfold removePage.
  rewrite (filter_id_ne_delete _ i p Hnd Hi). split; [done|].
  simpl. rewrite length_delete; [done|by eexists].
Qed.

End merger_working_set.

(** * More on drag and drop *)

Section merger_drop_more.

Import PdfMerger.

Implicit Types (st : State) (p : PageInProcessing.t).

Lemma handleDrop_in_range st (i : nat) (t : Z) p :
  dragItem st = Some (Z.of_nat i) → dragOverItem st = Some t →
  pages st !! i = Some p → 0 ≤ t →
  handleDrop st
  = Some (mkState (loadedFiles st)
            (insertAt (Z.to_nat (Z.min t (Z.of_nat (length (delete i (pages st))))))
                      p (delete i (pages st)))
            (isProcessing st) (error st) None None (downloads st)).
Proof.
  intros Hdrag Hover Hp Ht. unfold handleDrop. rewrite Hdrag, Hover.
  rewrite (splice_remove_one _ _ _ Hp). cbn -[splice].
  by rewrite splice_insert_one.
Qed.

Lemma insertAt_delete_same {A} (l : list A) (i : nat) (x : A) :
  l !! i = Some x → insertAt i x (delete i l) = l.
Proof.
  intros Hi. pose proof (lookup_lt_Some _ _ _ Hi) as Hlt.
  unfold insertAt. rewrite delete_take_drop.
  rewrite take_app_length' by (rewrite length_take; lia).
  rewrite drop_app_length' by (rewrite length_take; lia).
  by apply take_drop_middle.
Qed.

(** X7. A drop whose drag position is a position of the working set always
    goes through, wherever the page is dropped (also with a negative or too
    large drop position): the working set afterwards is a permutation of the
    one before, so no page is lost or doubled, the registry is untouched,
    and both drag positions are cleared, so that a second drop without a new
    drag changes nothing. *)
Theorem handleDrop_keeps_pages st (d o : Z) :
  dragItem st = Some d → dragOverItem st = Some o →
  0 ≤ d < Z.of_nat (length (pages st)) →
  ∃ st',
    handleDrop st = Some st' ∧
    pages st' ≡ₚ pages st ∧
    loadedFiles st' = loadedFiles st ∧
    dragItem st' = None ∧ dragOverItem st' = None ∧
    handleDrop st' = Some st'.
Proof.
  intros Hd Ho Hrange.
  destruct (lookup_lt_is_Some_2 (pages st) (Z.to_nat d)) as [p Hp]; [lia|].
  assert (∃ st', handleDrop st = Some st' ∧ dragItem st' = None
                 ∧ dragOverItem st' = None) as (st' & Hdrop & Hd' & Ho').
  { unfold handleDrop. rewrite Hd, Ho.
    replace d with (Z.of_nat (Z.to_nat d)) by lia.
    rewrite (splice_remove_one _ _ _ Hp). cbn -[splice].
    destruct (splice _ o 0 [p]) as [removed' newPages']. by eexists. }
  destruct (handleDrop_Permutation st st' Hdrop)
    as (Hperm & Hlf & _).
  exists st'. split_and!; try done.
  unfold handleDrop. by rewrite Hd'.
Qed.

(** X8. Dragging a page from position [i] to position [t] and then back
    from [t] to [i] gives the working set of before. *)
Theorem handleDrop_there_and_back st (i t : nat) p :
  dragItem st = Some (Z.of_nat i) → dragOverItem st = Some (Z.of_nat t) →
  pages st !! i = Some p →
  (t < length (pages st))%nat →
  ∃ st1 st2,
    handleDrop st = Some st1 ∧
    pages st1 !! t = Some p ∧
    handleDrop (handleDragEnter (Z.of_nat i) (handleDragStart (Z.of_nat t) st1))
    = Some st2 ∧
    pages st2 = pages st.
Proof.
  intros Hdrag Hover Hp Ht.
  pose proof (lookup_lt_Some _ _ _ Hp) as Hi.
  assert (length (delete i (pages st)) = length (pages st) - 1)%nat as Hlen
    by (rewrite length_delete; [done|by eexists]).
  pose proof (handleDrop_in_range st i (Z.of_nat t) p Hdrag Hover Hp) as Hdrop1.
  rewrite Hlen in Hdrop1.
  replace (Z.to_nat (Z.min (Z.of_nat t) (Z.of_nat (length (pages st) - 1))))
    with t in Hdrop1 by lia.
  specialize (Hdrop1 ltac:(lia)).
  eexists _, _. split; [exact Hdrop1|]. simpl.
  assert (insertAt t p (delete i (pages st)) !! t = Some p) as Hpt
    by (apply insertAt_lookup; lia).
  split; [exact Hpt|].
  erewrite handleDrop_in_range; [|reflexivity|reflexivity|exact Hpt|lia].
  simpl. split; [reflexivity|].
  rewrite insertAt_delete by lia. rewrite Hlen.
  replace (Z.to_nat (Z.min (Z.of_nat i) (Z.of_nat (length (pages st) - 1))))
    with i by lia.
  by apply insertAt_delete_same.
Qed.

End merger_drop_more.

(** * More on the merge build *)

Section merger_build_more.

Context `{PdfLib}.
Import PdfMerger.

Implicit Types (st : State) (p : PageInProcessing.t).

(** X9. A merge of a working set that is not empty is all or nothing and
    leaves the registry and the working set alone: either the loop and
    [save] go through, no error is set and exactly one file, merged.pdf with
    the saved bytes, is downloaded; or the error message is set and nothing
    is downloaded.  Either way the busy flag is off afterwards. *)
Theorem handleMerge_all_or_nothing st :
  pages st ≠ [] →
  let st' := handleMerge st in
  loadedFiles st' = loadedFiles st ∧ pages st' = pages st ∧
  isProcessing st' = false ∧
  ((∃ l bytes,
      handleMerge_loop (loadedFiles st) emptyLocals (pages st) = Normal l ∧
      PDFDocument_save (mergedPdf l) = Some bytes ∧
      error st' = None ∧
      downloads st' = downloads st ++ [("merged.pdf", bytes)]) ∨
   (error st' = Some "An error occurred while merging the PDFs." ∧
    downloads st' = downloads st)).
Proof.
  intros Hne st'. subst st'. unfold handleMerge.
  rewrite decide_False by (by intros ?%nil_length_inv). simpl.
  destruct (handleMerge_loop _ _ _) as [l|l] eqn:Hloop; simpl.
  - destruct (PDFDocument_save (mergedPdf l)) as [bytes|] eqn:Hsave; simpl.
    + split_and!; try done. left. by exists l, bytes.
    + split_and!; try done. by right.
  - split_and!; try done. by right.
Qed.

Lemma handleMerge_body_throws (lf : list LoadedPdfFile.t) (l : MergeLocals) p :
  CacheOk lf l →
  is_Some (resolve lf (PageInProcessing.sourceFileId p)) →
  referencedPage lf p = None →
  isNormal (handleMerge_body lf l p) = false.
Proof.
  intros Hok [f Hf] Href. unfold referencedPage in Href. rewrite Hf in Href.
  destruct (handleMerge_body_step lf l p)
    as [doc pg Hc Hpg|doc Hc Hpg|Hc Hk|Hc Hk Hr|f' Hc Hk Hr Hload
        |f' doc pg Hc Hk Hr Hload Hpg|f' doc Hc Hk Hr Hload Hpg];
    try done; try congruence.
  - destruct (cache_sound _ _ Hok _ _ Hc) as (_ & f' & Hf' & Hload).
    assert (f' = f) as -> by congruence. rewrite Hload in Href. congruence.
  - assert (f' = f) as -> by congruence. rewrite Hload in Href. congruence.
Qed.

(** X10. One reference that cannot be served stops the whole merge: if its
    source is in the registry but the file does not parse at build time, or
    [originalPageIndex] is not a page of it, the merge sets its error
    message and downloads nothing, although all references before it were
    in order. *)
Theorem handleMerge_bad_reference st (pre post : list PageInProcessing.t) p :
  pages st = pre ++ p :: post →
  Forall (PageRefOk (loadedFiles st)) pre →
  is_Some (resolve (loadedFiles st) (PageInProcessing.sourceFileId p)) →
  referencedPage (loadedFiles st) p = None →
  error (handleMerge st) = Some "An error occurred while merging the PDFs." ∧
  downloads (handleMerge st) = downloads st.
Proof.
  intros Hpages Hpre Hres Href.
  assert (isNormal (handleMerge_loop (loadedFiles st) emptyLocals (pages st))
          = false) as Hthrow.
  { rewrite Hpages, handleMerge_loop_app.
    destruct (handleMerge_loop_ok (loadedFiles st) pre emptyLocals
                (CacheOk_empty _) Hpre) as (l1 & out & Hloop & _).
    destruct (handleMerge_loop_calls (loadedFiles st) pre emptyLocals
                (CacheOk_empty _)) as (_ & _ & Hnormal).
    destruct (Hnormal l1 Hloop) as (Hok1 & _).
    rewrite Hloop. simpl.
    pose proof (handleMerge_body_throws _ l1 p Hok1 Hres Href) as Hbody.
    by destruct (handleMerge_body (loadedFiles st) l1 p). }
  unfold handleMerge.
  rewrite decide_False by (rewrite Hpages, length_app; simpl; lia). simpl.
  by destruct (handleMerge_loop _ _ _).
Qed.




End merger_build_more.

(** * Properties of PdfSplitter *)

Section splitter_selection.

Import PdfSplitter.

Implicit Types (st : State) (p : PageInProcessing.t).

(** X13. Selecting is toggling: [togglePageSelection] flips whether the
    given id is selected, leaves every other id as it was, and done twice
    with the same id gives the state of before. *)
Theorem togglePageSelection_involutive (pageId : string) st :
  (pageId ∈ selectedPages (togglePageSelection pageId st)
   ↔ pageId ∉ selectedPages st) ∧
  (∀ other, other ≠ pageId →
     other ∈ selectedPages (togglePageSelection pageId st)
     ↔ other ∈ selectedPages st) ∧
  togglePageSelection pageId (togglePageSelection pageId st) = st.
Proof.
  destruct st as [lf ps sel ip err dl]. unfold togglePageSelection. simpl.
  destruct (decide (pageId ∈ sel)) as [Hin|Hout]; simpl.
  - split_and!.
    + rewrite elem_of_difference, elem_of_singleton. tauto.
    + intros other Hne. rewrite elem_of_difference, elem_of_singleton. tauto.
    + rewrite decide_False
        by (rewrite elem_of_difference, elem_of_singleton; tauto).
      f_equal. apply set_eq. intros y.
      rewrite elem_of_union, elem_of_difference, elem_of_singleton.
      destruct (decide (y = pageId)) as [->|]; tauto.
  - split_and!.
    + rewrite elem_of_union, elem_of_singleton. tauto.
    + intros other Hne. rewrite elem_of_union, elem_of_singleton. tauto.
    + rewrite decide_True by (rewrite elem_of_union, elem_of_singleton; tauto).
      f_equal. apply set_eq. intros y.
      rewrite elem_of_difference, elem_of_union, elem_of_singleton.
      destruct (decide (y = pageId)) as [->|]; tauto.
Qed.

Lemma removeEach_filter (ids : list string) (ps : list PageInProcessing.t) :
  removeEach ids ps = filter (fun p => PageInProcessing.id p ∉ ids) ps.
Proof.
  induction ids as [|a ids IH]; simpl.
  - induction ps as [|p ps IHps]; [done|].
    rewrite filter_cons_True by apply not_elem_of_nil. by rewrite <- IHps.
  - rewrite IH, list_filter_filter. apply list_filter_iff.
    intros p. rewrite not_elem_of_cons. tauto.
Qed.

(** X14. Deleting the selection is the batch form of removing pages one by
    one: the pages left are those obtained by removing the selected ids one
    after the other, the selection is empty afterwards, and a second delete
    changes nothing. *)
Theorem deleteSelectedPages_removeEach st :
  pages (deleteSelectedPages st)
  = removeEach (elements (selectedPages st)) (pages st) ∧
  selectedPages (deleteSelectedPages st) = ∅ ∧
  deleteSelectedPages (deleteSelectedPages st) = deleteSelectedPages st.
Proof.
  split_and!.
  - rewrite removeEach_filter. unfold deleteSelectedPages. simpl.
    apply list_filter_iff. intros p. by rewrite elem_of_elements.
  - done.
  - unfold deleteSelectedPages. simpl. f_equal.
    induction (filter _ (pages st)) as [|p ps IH]; [done|].
    rewrite filter_cons_True by set_solver. by rewrite IH.
Qed.

End splitter_selection.

Section splitter_more.

Context `{PdfLib}.
Import PdfSplitter.

Implicit Types (st : State) (p : PageInProcessing.t).

(** X15. Loading a file into the splitter takes the first accepted file
    only and replaces what was there.  When the file parses to [N] pages the
    working set is its [N] page references in order and the selection is
    empty; when it does not parse, the state is cleared and, [resetState]
    coming after [setError] in the [catch] block, no error message is
    left. *)
Theorem handleFileAccepted_first_file (now : Z) (file : File.t)
    (others : list File.t) st :
  (∀ doc, PDFDocument_load (File.arrayBuffer file) = Some doc →
     let fileId := File.name file +:+ "-" +:+ number_to_string now in
     handleFileAccepted now (file :: others) st
     = mkState (Some (LoadedPdfFile.mk fileId file (length doc)))
         (PdfMerger.newPagesOf fileId (length doc))
         ∅ false None (downloads st)) ∧
  (PDFDocument_load (File.arrayBuffer file) = None →
   handleFileAccepted now (file :: others) st
   = mkState None [] ∅ false None (downloads st)).
Proof.
  split.
  - intros doc Hdoc fileId. unfold handleFileAccepted. by rewrite Hdoc.
  - intros Hnone. unfold handleFileAccepted. by rewrite Hnone.
Qed.

Lemma handleCreatePdf_frame st :
  loadedFile (handleCreatePdf st) = loadedFile st ∧
  pages (handleCreatePdf st) = pages st ∧
  selectedPages (handleCreatePdf st) = selectedPages st.
Proof.
  destruct st as [lf ps sel ip err dl]. unfold handleCreatePdf. simpl.
  destruct lf as [lf|]; [|done].
  case_decide; [done|]. simpl.
  destruct (handleCreatePdf_newPdf lf ps) as [newPdf|]; [|done].
  by destruct (PDFDocument_save newPdf).
Qed.

Lemma SplitterReachable_ok st : SplitterReachable st → SplitterOk st.
Proof.
  induction 1 as [|now accepted st _ IH|pageId st _ IH|st _ IH|st _ IH|st _ _].
  - done.
  - destruct accepted as [|file others]; [done|].
    unfold handleFileAccepted, SplitterOk.
    destruct (PDFDocument_load (File.arrayBuffer file)) as [doc|] eqn:Hdoc;
      simpl; [|done].
    split; [|done]. split; simpl; [by exists doc|by exists now].
  - done.
  - unfold SplitterOk in *. simpl.
    destruct (loadedFile st) as [lf|].
    + destruct IH as [He Hsub]. split; [done|].
      etrans; [apply sublist_filter|done].
    + by rewrite IH.
  - unfold SplitterOk in *.
    destruct (handleCreatePdf_frame st) as (-> & -> & _). done.
  - done.
Qed.

Lemma mapM_sublist {A B} (f : A → option B) (l1 l2 : list A) (k2 : list B) :
  l1 `sublist_of` l2 → mapM f l2 = Some k2 →
  ∃ k1, mapM f l1 = Some k1 ∧ k1 `sublist_of` k2.
Proof.
  intros Hsub. revert k2.
  induction Hsub as [|x l1 l2 _ IH|x l1 l2 _ IH]; intros k2 Hk2.
  - exists []. split; [done|apply sublist_nil_l].
  - simpl in Hk2. destruct (f x) as [y|] eqn:Hy; simpl in Hk2; [|done].
    destruct (mapM f l2) as [k2'|] eqn:Hl2; simpl in Hk2; [|done].
    injection Hk2 as <-. destruct (IH k2' eq_refl) as (k1 & Hk1 & Hsub1).
    exists (y :: k1). simpl. rewrite Hy, Hk1. simpl.
    split; [done|by constructor].
  - simpl in Hk2. destruct (f x) as [y|] eqn:Hy; simpl in Hk2; [|done].
    destruct (mapM f l2) as [k2'|] eqn:Hl2; simpl in Hk2; [|done].
    injection Hk2 as <-. destruct (IH k2' eq_refl) as (k1 & Hk1 & Hsub1).
    exists k1. split; [done|by constructor].
Qed.

Lemma copyPages_all_pages (fileId : string) (doc : list PDFPage) :
  copyPages doc
    ((fun p => PageInProcessing.originalPageIndex p - 1)
       <$> PdfMerger.newPagesOf fileId (length doc))
  = Some doc.
Proof.
  unfold copyPages. apply mapM_Some_2. apply Forall2_fmap_l.
  apply Forall2_same_length_lookup_2.
  - unfold PdfMerger.newPagesOf. by rewrite length_fmap, length_seq.
  - intros i p pg Hp Hpg. unfold PdfMerger.newPagesOf in Hp.
    rewrite list_lookup_fmap in Hp.
    destruct (seq 0 (length doc) !! i) as [j|] eqn:Hj; [|done].
    apply lookup_seq in Hj as [-> _]. injection Hp as <-. simpl.
    unfold getPage. destruct (Z.ltb_spec (Z.of_nat i + 1 - 1) 0); [lia|].
    by replace (Z.to_nat (Z.of_nat i + 1 - 1)) with i by lia.
Qed.

(** X16. In every state the handlers of the splitter lead to, creating the
    PDF from a working set that is not empty cannot fail on a page index:
    the new document has one page per page of the working set and is a
    subsequence of the pages of the source, so pages come out in their
    original order, none twice.  When [save] succeeds the file
    split-<name> is downloaded and no error is set. *)
Theorem reachable_split_output st (lf : LoadedPdfFile.t) :
  SplitterReachable st →
  loadedFile st = Some lf →
  pages st ≠ [] →
  ∃ doc out,
    PDFDocument_load (File.arrayBuffer (LoadedPdfFile.file lf)) = Some doc ∧
    handleCreatePdf_newPdf lf (pages st) = Some out ∧
    out `sublist_of` doc ∧
    length out = length (pages st) ∧
    ∀ bytes, PDFDocument_save out = Some bytes →
      error (handleCreatePdf st) = None ∧
      downloads (handleCreatePdf st)
      = downloads st
        ++ [("split-" +:+ File.name (LoadedPdfFile.file lf), bytes)].
Proof.
  intros Hok%SplitterReachable_ok Hlf Hne. unfold SplitterOk in Hok.
  rewrite Hlf in Hok. destruct Hok as [[(doc & Hdoc & Hcount) _] Hsub].
  rewrite Hcount in Hsub.
  destruct (mapM_sublist (getPage doc) _ _ doc
              (fmap_sublist (fun p => PageInProcessing.originalPageIndex p - 1)
                 _ _ Hsub)
              (copyPages_all_pages (LoadedPdfFile.id lf) doc))
    as (out & Hout & Hsubout).
  assert (handleCreatePdf_newPdf lf (pages st) = Some out) as Hnew.
  { unfold handleCreatePdf_newPdf, copyPages. by rewrite Hdoc, Hout. }
  exists doc, out. split_and!; [done|done|done| |].
  - apply length_mapM in Hout. by rewrite length_fmap in Hout.
  - intros bytes Hsave. unfold handleCreatePdf. rewrite Hlf.
    rewrite decide_False by (by intros ?%nil_length_inv). simpl.
    by rewrite Hnew, Hsave.
Qed.

End splitter_more.

(** * Properties of the two compressors *)

Section compressor_more.

Context `{RasterSave}.
Import PdfCompressor.

(** X17. A run of [handleCompress] on a selected file always settles: the
    spinner is off, the progress text is empty, the file and the chosen
    level are kept, and exactly one of result and error is set, whatever
    result or error an earlier run had left.  With a result, its name is
    compressed-<name>, its sizes are those of the file and of the bytes
    saved, and [downloadCompressedFile] hands out these bytes under that
    name; with an error there is nothing to download. *)
Theorem handleCompress_settles (st : State) (f : File.t) :
  file st = Some f →
  let st' := handleCompress st in
  file st' = Some f ∧ isProcessing st' = false ∧ progress st' = "" ∧
  compressionLevel st' = compressionLevel st ∧
  ((∃ r, result st' = Some r ∧ error st' = None ∧
         fileName r = "compressed-" +:+ File.name f ∧
         originalSize r = File.size f ∧
         compressedSize r = Z.of_nat (length (data r)) ∧
         downloadCompressedFile st' = Some ("compressed-" +:+ File.name f, data r))
   ∨ (result st' = None ∧ is_Some (error st') ∧
      downloadCompressedFile st' = None)).
Proof.
  intros Hfile st'. subst st'. unfold downloadCompressedFile, handleCompress.
  rewrite Hfile.
  set (st0 := setProgress "準備中..."
                (setResult None (setError None (setIsProcessing true st)))).
  unfold handleCompress_try.
  destruct (pdfjs_getDocument (File.arrayBuffer f)) as [doc|]; simpl.
  2: { split_and!; [done..|]. right. split_and!; [done|by eexists|done]. }
  destruct (handleCompress_loop_spec doc (numPages doc)
              (COMPRESSION_LEVELS !! compressionLevel st0)
              (numPages doc) 1 st0 [])
    as (outs & _ & _ & _ & _ & _ & _ & Hframe).
  destruct (handleCompress_loop doc (numPages doc) _ (st0, []) _)
    as [[st1 newPdfDoc]|[st1 newPdfDoc]]; simpl in *;
    destruct Hframe as (Hf & Hp & Hr & He & Hl).
  - destruct (newPdfDoc_save newPdfDoc) as [bytes|]; simpl.
    + rewrite Hf, Hl, He. split_and!; [done..|]. left. by eexists.
    + rewrite Hf, Hl, Hr. split_and!; [done..|].
      right. split_and!; [done|by eexists|done].
  - rewrite Hf, Hl, Hr. split_and!; [done..|].
    right. split_and!; [done|by eexists|done].
Qed.

End compressor_more.

Section components_compressor.

Context `{PdfLib}.
Import ComponentsPdfCompressor.


End components_compressor.

(** * Properties of FileDropzone *)

Section dropzone.

Import FileDropzone.

Lemma handleDrop_cases (multiple : bool) (files : list PickedFile) :
  (filter isPdf files = [] ∧ files = [] ∧ (handleDrop multiple files).2 = []) ∨
  (filter isPdf files = [] ∧ files ≠ [] ∧
   (handleDrop multiple files).2 = [Alert "Please drop PDF files only."]) ∨
  (∃ first others,
     filter isPdf files = first :: others ∧
     (handleDrop multiple files).2
     = [OnFilesAccepted
          (file <$> (if multiple then first :: others else [first]))]).
Proof.
  unfold handleDrop. simpl. fold isPdf.
  destruct files as [|f0 files]; [by left|].
  rewrite decide_True by (simpl; lia).
  change (filter (fun f => type f = "application/pdf") (f0 :: files))
    with (filter isPdf (f0 :: files)).
  destruct (filter isPdf (f0 :: files)) as [|first others] eqn:Hpdf.
  - right. left. by rewrite decide_False by (simpl; lia).
  - right. right. exists first, others.
    rewrite decide_True by (simpl; lia). by destruct multiple.
Qed.

(** X19. What a drop hands to the owning component.  The callback is called
    at most once, and exactly when a dropped file has type application/pdf;
    it then gets files of that type only: all of them in drop order when
    [multiple] is set, else the first one alone.  The alert is shown
    exactly when files were dropped and none is a PDF. *)
Theorem handleDrop_pdf_only (multiple : bool) (files : list PickedFile) :
  let effects := (handleDrop multiple files).2 in
  ((∃ fs, OnFilesAccepted fs ∈ effects) ↔ Exists isPdf files) ∧
  (∀ fs, OnFilesAccepted fs ∈ effects →
     effects = [OnFilesAccepted fs] ∧
     ∃ picked,
       fs = file <$> picked ∧ picked ≠ [] ∧ Forall isPdf picked ∧
       picked `sublist_of` files ∧
       if multiple then picked = filter isPdf files
       else Some picked = (fun f => [f]) <$> head (filter isPdf files)) ∧
  (∀ message, Alert message ∈ effects ↔
     message = "Please drop PDF files only." ∧ files ≠ [] ∧
     Forall (fun f => ¬ isPdf f) files).
Proof.
  intros effects. subst effects.
  assert (filter isPdf files = [] ↔ Forall (fun f => ¬ isPdf f) files) as Hnone.
  { rewrite Forall_forall. split.
    - intros Hnil f Hf Hpdf.
      assert (f ∈ filter isPdf files) as Hin by by apply list_elem_of_filter.
      rewrite Hnil in Hin. by apply elem_of_nil in Hin.
    - intros Hall. induction files as [|f fs IH]; [done|].
      rewrite filter_cons_False by (apply Hall, elem_of_cons; by left).
      apply IH. intros g Hg. apply Hall, elem_of_cons. by right. }
  destruct (handleDrop_cases multiple files)
    as [(Hpdf & Hfiles & ->)|[(Hpdf & Hfiles & ->)|(first & others & Hpdf & ->)]].
  - subst files. split_and!.
    + split; [by intros [fs ?%elem_of_nil]|by intros ?%Exists_nil].
    + by intros fs ?%elem_of_nil.
    + intros message. split; [by intros ?%elem_of_nil|by intros (_ & ? & _)].
  - split_and!.
    + split.
      * intros [fs Hin]. apply list_elem_of_singleton in Hin. done.
      * intros Hex. apply Exists_exists in Hex as (f & Hf & Hpdff).
        apply Hnone in Hpdf. rewrite Forall_forall in Hpdf.
        by destruct (Hpdf f Hf).
    + intros fs Hin. apply list_elem_of_singleton in Hin. done.
    + intros message. rewrite list_elem_of_singleton. split.
      * intros [= <-]. split_and!; [done|done|by apply Hnone].
      * by intros (-> & _).
  - assert (first ∈ filter isPdf files) as Hfirst
      by (rewrite Hpdf; apply elem_of_cons; by left).
    apply list_elem_of_filter in Hfirst as [Hfirstpdf Hfirstin].
    assert (Forall isPdf (first :: others)) as Hall.
    { rewrite <- Hpdf. apply Forall_forall. intros g Hg.
      by apply list_elem_of_filter in Hg as [? _]. }
    assert ((first :: others) `sublist_of` files) as Hsub
      by (rewrite <- Hpdf; apply sublist_filter).
    split_and!.
    + split.
      * intros _. apply Exists_exists. by exists first.
      * intros _. eexists. apply list_elem_of_singleton. done.
    + intros fs Hin. apply list_elem_of_singleton in Hin. injection Hin as ->.
      split; [done|].
      exists (if multiple then first :: others else [first]).
      rewrite Hpdf. destruct multiple; split_and!; try done.
      * apply Forall_cons in Hall as [? _]. by apply Forall_singleton.
      * etrans; [|exact Hsub]. constructor. apply sublist_nil_l.
    + intros message. rewrite list_elem_of_singleton. split; [done|].
      intros (_ & _ & Hno). apply Hnone in Hno. by rewrite Hpdf in Hno.
Qed.

End dropzone.

Section dropzone_merger.

Context `{PdfLib}.
Import PdfMerger.

Lemma handleFilesAccepted_loadedFiles (now : nat → Z) (accepted : list File.t)
    (st : State) :
  loadedFiles (handleFilesAccepted now accepted st)
  = loadedFiles st ++ loadedEntries now 0 (newFilesOf st accepted).
Proof.
  destruct (decide (newFilesOf st accepted = [])) as [Hnil|Hne].
  - unfold handleFilesAccepted. simpl. fold (newFilesOf st accepted).
    rewrite Hnil. simpl. by rewrite app_nil_r.
  - by destruct (handleFilesAccepted_unfold now accepted st Hne) as (err & -> & _).
Qed.

(** X20. The dropzone of the merger in front of [handleFilesAccepted]: a
    file that enters the registry through a drop was dropped with type
    application/pdf.  (The file input is another way in:
    [FileDropzone.handleChange] passes the chosen files on without looking
    at their type.) *)
Theorem merger_drop_registers_pdf_only (now : nat → Z)
    (files : list FileDropzone.PickedFile) (fs : list File.t) (st : State) :
  FileDropzone.OnFilesAccepted fs ∈ (FileDropzone.handleDrop true files).2 →
  ∀ e, e ∈ loadedFiles (handleFilesAccepted now fs st) →
    e ∈ loadedFiles st ∨
    ∃ dropped, dropped ∈ files ∧ isPdf dropped ∧
               FileDropzone.file dropped = LoadedPdfFile.file e.
Proof.
  intros Hdrop e He. rewrite handleFilesAccepted_loadedFiles in He.
  apply elem_of_app in He as [He|He]; [by left|right].
  apply loadedEntries_elem in He. unfold newFilesOf in He.
  apply list_elem_of_filter in He as [_ He].
  destruct (handleDrop_cases true files)
    as [(_ & _ & Heff)|[(_ & _ & Heff)|(first & others & Hpdf & Heff)]];
    rewrite Heff in Hdrop.
  - by apply elem_of_nil in Hdrop.
  - by apply list_elem_of_singleton in Hdrop.
  - apply list_elem_of_singleton in Hdrop.
    assert (LoadedPdfFile.file e ∈ FileDropzone.file <$> (first :: others))
      as He' by (injection Hdrop as ->; exact He).
    apply list_elem_of_fmap in He' as (dropped & Hfile & Hin).
    rewrite <- Hpdf in Hin. apply list_elem_of_filter in Hin as [Hp Hin].
    by exists dropped.
Qed.

End dropzone_merger.

(** * The further properties on concrete inputs *)

Section merger_more_examples.

Import PdfMerger.
#[local] Existing Instance bytePdfLib.


Lemma handleFilesAccepted_known_names_witness :
  handleFilesAccepted (fun _ => 5) [fileA'] mergerAB = setError None mergerAB.
Proof.
  apply (handleFilesAccepted_known_names (fun _ => 5) [fileA'] mergerAB).
  repeat constructor.
Defined.

Lemma handleFilesAccepted_bad_file_witness :
  error (handleFilesAccepted (fun _ => 5) [fileBroken; fileA] initialState)
  = Some (couldNotProcess fileBroken) ∧
  fileA ∈ LoadedPdfFile.file
          <$> loadedFiles
                (handleFilesAccepted (fun _ => 5) [fileBroken; fileA] initialState).
Proof.
  destruct (handleFilesAccepted_bad_file (fun _ => 5) [fileBroken; fileA]
              initialState) as [Hloaded Herr].
  split.
  - rewrite Herr. vm_compute. reflexivity.
  - apply Hloaded.
    + apply list_elem_of_In. vm_compute. right. left. reflexivity.
    + eexists. reflexivity.
Defined.

Lemma handleFilesAccepted_one_file_witness :
  ∃ added,
    pages (handleFilesAccepted (fun _ => 1) [fileA] initialState)
    = pages initialState ++ added ∧
    length added = 3%nat.
Proof.
  destruct (@handleFilesAccepted_one_file bytePdfLib (fun _ => 1) fileA
              [Byte.x01; Byte.x02; Byte.x03] initialState)
    as (added & _ & Hpages & Hlen & _);
    [apply not_elem_of_nil|reflexivity|].
  exists added. split; [exact Hpages|exact Hlen].
Defined.


Lemma removePage_deletes_one_witness :
  removePage "b.pdf-2-page-0" mergerAB
  = setPages (delete 1%nat (pages mergerAB)) mergerAB.
Proof.
  apply (removePage_deletes_one mergerAB 1 (pageRef "b.pdf-2" 1)).
  - compute_done.
  - reflexivity.
Defined.

Lemma handleDrop_keeps_pages_witness :
  ∃ st', handleDrop mergerDragging = Some st' ∧
         pages st' ≡ₚ pages mergerDragging.
Proof.
  destruct (handleDrop_keeps_pages mergerDragging 0 3)
    as (st' & Hdrop & Hperm & _); [reflexivity|reflexivity|simpl; lia|].
  exists st'. split; [exact Hdrop|exact Hperm].
Defined.

Lemma handleDrop_there_and_back_witness :
  ∃ st1 st2,
    handleDrop mergerDragging = Some st1 ∧
    handleDrop (handleDragEnter 0 (handleDragStart 3 st1)) = Some st2 ∧
    pages st2 = pages mergerDragging.
Proof.
  destruct (handleDrop_there_and_back mergerDragging 0 3 (pageRef "a.pdf-1" 1))
    as (st1 & st2 & H1 & _ & H2 & Hback);
    [reflexivity|reflexivity|reflexivity|simpl; lia|].
  exists st1, st2. split_and!; [exact H1|exact H2|exact Hback].
Defined.

Lemma handleMerge_all_or_nothing_witness :
  pages (handleMerge mergerAB) = pages mergerAB ∧
  isProcessing (handleMerge mergerAB) = false.
Proof.
  destruct (handleMerge_all_or_nothing mergerAB) as (_ & Hpages & Hproc & _);
    [discriminate|].
  split; [exact Hpages|exact Hproc].
Defined.

Lemma handleMerge_bad_reference_witness :
  error (handleMerge mergerBadIndex)
  = Some "An error occurred while merging the PDFs." ∧
  downloads (handleMerge mergerBadIndex) = downloads mergerBadIndex.
Proof.
  apply (handleMerge_bad_reference mergerBadIndex
           [pageRef "a.pdf-1" 1] [] (pageRef "a.pdf-1" 9)).
  - reflexivity.
  - repeat constructor; try compute_done.
    eexists _, _. split_and!; [reflexivity|reflexivity|done|done].
  - eexists. reflexivity.
  - reflexivity.
Defined.



Lemma merger_drop_registers_pdf_only_witness :
  loadedA ∈ loadedFiles initialState ∨
  ∃ dropped, dropped ∈ [droppedNotes; droppedA] ∧ isPdf dropped ∧
             FileDropzone.file dropped = LoadedPdfFile.file loadedA.
Proof.
  apply (merger_drop_registers_pdf_only (fun _ => 1) [droppedNotes; droppedA]
           [fileA] initialState).
  - apply list_elem_of_In. vm_compute. left. reflexivity.
  - apply list_elem_of_In. vm_compute. left. reflexivity.
Defined.

End merger_more_examples.

Section splitter_more_examples.

Import PdfSplitter.
#[local] Existing Instance bytePdfLib.

Lemma splitterA_reachable : SplitterReachable splitterA.
Proof.
  apply sreach_deleteSelectedPages, sreach_togglePageSelection,
    sreach_handleFileAccepted, sreach_initial.
Defined.

Lemma handleFileAccepted_first_file_witness :
  handleFileAccepted 1 [fileBroken; fileA] initialState
  = mkState None [] ∅ false None (downloads initialState).
Proof.
  apply (handleFileAccepted_first_file 1 fileBroken [fileA] initialState).
  reflexivity.
Defined.

Lemma reachable_split_output_witness :
  ∃ doc out,
    handleCreatePdf_newPdf loadedA (pages splitterA) = Some out ∧
    out `sublist_of` doc ∧ length out = length (pages splitterA).
Proof.
  destruct (reachable_split_output splitterA loadedA splitterA_reachable)
    as (doc & out & _ & Hnew & Hsub & Hlen & _).
  - reflexivity.
  - intros Hnil. vm_compute in Hnil. discriminate Hnil.
  - exists doc, out. split_and!; [exact Hnew|exact Hsub|exact Hlen].
Defined.

End splitter_more_examples.

Section compressor_more_examples.

#[local] Existing Instance toyRasterizer.
#[local] Existing Instance toyRasterSave.

Lemma handleCompress_settles_witness :
  PdfCompressor.isProcessing
    (PdfCompressor.handleCompress (compressorWith onePageFile)) = false ∧
  PdfCompressor.progress
    (PdfCompressor.handleCompress (compressorWith onePageFile)) = "".
Proof.
  destruct (handleCompress_settles (compressorWith onePageFile)
              onePageFile)
    as (_ & Hproc & Hprog & _); [reflexivity|].
  split; [exact Hproc|exact Hprog].
Defined.


End compressor_more_examples.
